(** * Help-website QA agent: crawler, extractor and context assembler

    A shallow embedding of [qa-agent.py].  The program is a small amount of
    glue around four library collaborators (urllib.parse, requests,
    BeautifulSoup and the answer-generation client); the glue is embedded
    here function by function, the collaborators are the fields of a
    [World] record over which every definition and theorem is parametric.

    Conventions.
    - A Python [str] is held as the [string] of the bytes of its UTF-8
      encoding; [+:+] is concatenation.  The program compares strings,
      joins them and looks for ASCII substrings, which reads the same on
      the encoding; [str.strip] is the one operation below that looks at
      characters outside ASCII.
    - A Python call that may raise is a value of [Exc]; a method that also
      reads or writes object state is a computation in the monad [M].
    - [try ... except Exception as e] is [try_except]; nothing below models
      [BaseException]s such as [KeyboardInterrupt].
    - The recursion of [crawl_page] is bounded by a fuel argument; running
      out of fuel is the separate outcome [OutOfFuel], which carries the
      state reached so far and is never caught by [try_except]. *)

From Stdlib Require Import String Ascii List Bool ZArith Lia.
From stdpp Require Import base gmap strings list pretty.

Set Warnings "-register-all,-clear-no-such-hyp".

Local Open Scope string_scope.
Local Open Scope Z_scope.

(* ===================================================================== *)
(** ** Python strings *)
(* ===================================================================== *)

Module PyStr.

(** [s.startswith(p)] *)
Fixpoint startswith (p s : string) : bool :=
  match p, s with
  | EmptyString, _ => true
  | String a p', String b s' => Ascii.eqb a b && startswith p' s'
  | String _ _, EmptyString => false
  end.

(** [sub in s] *)
Fixpoint contains (sub s : string) : bool :=
  startswith sub s ||
  match s with
  | EmptyString => false
  | String _ s' => contains sub s'
  end.

(** [s.endswith(suf)] *)
Fixpoint endswith (suf s : string) : bool :=
  String.eqb suf s ||
  match s with
  | EmptyString => false
  | String _ s' => endswith suf s'
  end.

(** The string with the given bytes. *)
Definition utf8 (bytes : list nat) : string :=
  string_of_list_ascii (List.map ascii_of_nat bytes).

(** The characters [c] with [c.isspace()], each as its UTF-8 encoding:
    U+0009 to U+000D, U+001C to U+0020, U+0085, U+00A0, U+1680, U+2000 to
    U+200A, U+2028, U+2029, U+202F, U+205F and U+3000. *)
Definition whitespace : list string :=
  List.map utf8
    [[9]; [10]; [11]; [12]; [13]; [28]; [29]; [30]; [31]; [32];
     [194; 133]; [194; 160];
     [225; 154; 128];
     [226; 128; 128]; [226; 128; 129]; [226; 128; 130]; [226; 128; 131];
     [226; 128; 132]; [226; 128; 133]; [226; 128; 134]; [226; 128; 135];
     [226; 128; 136]; [226; 128; 137]; [226; 128; 138];
     [226; 128; 168]; [226; 128; 169]; [226; 128; 175];
     [226; 129; 159];
     [227; 128; 128]]%nat.

(** [s] without [w] at its start, when it starts with [w]. *)
Fixpoint drop_prefix (w s : string) : option string :=
  match w, s with
  | EmptyString, _ => Some s
  | String a w', String b s' => if Ascii.eqb a b then drop_prefix w' s' else None
  | String _ _, EmptyString => None
  end.

(** [s] without the character of [chars] it starts with, when it starts
    with one. *)
Fixpoint drop_one (chars : list string) (s : string) : option string :=
  match chars with
  | [] => None
  | w :: rest =>
      match drop_prefix w s with
      | Some t => Some t
      | None => drop_one rest s
      end
  end.

(** [s] without the characters of [chars] at its start; [fuel] bounds
    their number, and the length of [s] is enough. *)
Fixpoint drop_all (chars : list string) (fuel : nat) (s : string) : string :=
  match fuel with
  | O => s
  | S fuel' =>
      match drop_one chars s with
      | Some t => drop_all chars fuel' t
      | None => s
      end
  end.

(** The bytes of [s] from the last to the first. *)
Definition reversed (s : string) : string :=
  string_of_list_ascii (List.rev (list_ascii_of_string s)).

(** [s.lstrip()] *)
Definition lstrip (s : string) : string :=
  drop_all whitespace (String.length s) s.

(** [s.rstrip()]: the same from the end.  In an encoded string the bytes
    of a character at the end are the character: no encoding ends in the
    encoding of another character. *)
Definition rstrip (s : string) : string :=
  reversed (drop_all (List.map reversed whitespace) (String.length s) (reversed s)).

(** [s.strip()] *)
Definition strip (s : string) : string := rstrip (lstrip s).

(** [sep.join(l)] *)
Fixpoint join (sep : string) (l : list string) : string :=
  match l with
  | [] => ""
  | [x] => x
  | x :: rest => x +:+ sep +:+ join sep rest
  end.

Definition nl : string := String (ascii_of_nat 10) EmptyString.

(** [str(x)] for a value that is a string or [None]. *)
Definition str_opt (x : option string) : string :=
  match x with
  | Some s => s
  | None => "None"
  end.

End PyStr.

(* ===================================================================== *)
(** ** Exceptions and stateful computations *)
(* ===================================================================== *)

(** An instance of a subclass of [Exception]; the program only ever looks
    at [str(e)]. *)
Inductive PyException : Type :=
| Exception (str : string).

Definition exc_str (e : PyException) : string :=
  match e with Exception s => s end.

(** A call without side effects on the program's state: it returns or
    raises. *)
Inductive Exc (A : Type) : Type :=
| Return (a : A)
| Raise (e : PyException).
Arguments Return {A} a.
Arguments Raise {A} e.

(** Outcome of running a method from a state of type [S]. *)
Inductive Res (S A : Type) : Type :=
| Returned (a : A) (s : S)
| Raised (e : PyException) (s : S)
| OutOfFuel (s : S).
Arguments Returned {S A} a s.
Arguments Raised {S A} e s.
Arguments OutOfFuel {S A} s.

Definition M (S A : Type) : Type := S -> Res S A.

Definition res_state {S A} (r : Res S A) : S :=
  match r with
  | Returned _ s | Raised _ s | OutOfFuel s => s
  end.

Definition ret {S A} (a : A) : M S A := fun s => Returned a s.

Definition bind {S A B} (m : M S A) (k : A -> M S B) : M S B :=
  fun s =>
    match m s with
    | Returned a s' => k a s'
    | Raised e s' => Raised e s'
    | OutOfFuel s' => OutOfFuel s'
    end.

Declare Scope py_scope.
Delimit Scope py_scope with py.
Notation "'let*' x ':=' m 'in' k" := (bind m (fun x => k))
  (at level 10, x name, m at level 100, k at level 200) : py_scope.

Definition raise {S A} (e : PyException) : M S A := fun s => Raised e s.

Definition lift {S A} (x : Exc A) : M S A :=
  match x with
  | Return a => ret a
  | Raise e => raise e
  end.

Definition get {S} : M S S := fun s => Returned s s.
Definition modify {S} (f : S -> S) : M S unit := fun s => Returned tt (f s).

(** [try: body except Exception as e: handler e] *)
Definition try_except {S A} (body : M S A) (handler : PyException -> M S A) : M S A :=
  fun s =>
    match body s with
    | Raised e s' => handler e s'
    | r => r
    end.

(** The same for a call that touches no state. *)
Definition catch {A} (body : Exc A) (handler : PyException -> Exc A) : Exc A :=
  match body with
  | Raise e => handler e
  | r => r
  end.

Definition exc_bind {A B} (x : Exc A) (k : A -> Exc B) : Exc B :=
  match x with
  | Return a => k a
  | Raise e => Raise e
  end.

(** [for x in xs: body x] *)
Fixpoint for_each {S A} (xs : list A) (body : A -> M S unit) : M S unit :=
  match xs with
  | [] => ret tt
  | x :: rest => bind (body x) (fun _ => for_each rest body)
  end.

Local Open Scope py_scope.

(* ===================================================================== *)
(** ** The parsed document (BeautifulSoup's tree) *)
(* ===================================================================== *)

(** A node of the tree built by [BeautifulSoup(text, 'html.parser')]:
    a text node; a comment, or another string of a class that
    [stripped_strings] passes over (a declaration, the text of a script,
    style or template element); or an element with its tag name, the
    value of its multi-valued [class] attribute, its [href] attribute when
    it has one, and its children. *)
Inductive PageElement : Type :=
| NavigableString (s : string)
| Comment (s : string)
| Tag (name : string) (class_ : list string) (href : option string)
      (contents : list PageElement).

(** The [BeautifulSoup] object, given by the children of the root. *)
Abbreviation Soup := (list PageElement).

Module Bs4.

(** The element and all nodes below it, in document order. *)
Fixpoint self_and_descendants (e : PageElement) : list PageElement :=
  e :: match e with
       | Tag _ _ _ kids => flat_map self_and_descendants kids
       | _ => []
       end.

(** [soup.descendants] *)
Definition descendants (soup : Soup) : list PageElement :=
  flat_map self_and_descendants soup.

(** [tag.descendants] *)
Definition tag_descendants (e : PageElement) : list PageElement :=
  match e with
  | Tag _ _ _ kids => descendants kids
  | _ => []
  end.

Definition has_name (names : list string) (e : PageElement) : bool :=
  match e with
  | Tag n _ _ _ => existsb (String.eqb n) names
  | _ => false
  end.

Definition has_class (classes : list string) (e : PageElement) : bool :=
  match e with
  | Tag _ cs _ _ => existsb (fun c => existsb (String.eqb c) cs) classes
  | _ => false
  end.

(** A selector group made of type selectors and class selectors, such as
    ['main, article, .content, .documentation']: an element matches when
    it matches one of them. *)
Definition matches (names classes : list string) (e : PageElement) : bool :=
  has_name names e || has_class classes e.

(** [soup.select(group)]: every matching element, in document order. *)
Definition select (names classes : list string) (soup : Soup) : list PageElement :=
  List.filter (matches names classes) (descendants soup).

(** [soup.select_one(group)]: the first matching element in document
    order, or [None]. *)
Definition select_one (names classes : list string) (soup : Soup) : option PageElement :=
  head (select names classes soup).

(** The tree after [for elem in soup.select(group): elem.decompose()]
    for a group of type selectors: every subtree whose root has one of
    the names is gone. *)
Fixpoint decompose_in (names : list string) (e : PageElement) : PageElement :=
  match e with
  | Tag n cs h kids =>
      Tag n cs h
        (flat_map (fun k => if has_name names k then []
                            else [decompose_in names k]) kids)
  | _ => e
  end.

Definition decompose_all (names : list string) (soup : Soup) : Soup :=
  flat_map (fun k => if has_name names k then [] else [decompose_in names k]) soup.

(** [soup.title], that is [soup.find('title')]. *)
Definition title (soup : Soup) : option PageElement :=
  head (List.filter (has_name ["title"]) (descendants soup)).

(** [tag.string]: the single string child, looked for through single
    element children; [None] when some element on the way has no child
    or more than one. *)
Fixpoint string_ (e : PageElement) : option string :=
  match e with
  | NavigableString s | Comment s => Some s
  | Tag _ _ _ [child] => string_ child
  | Tag _ _ _ _ => None
  end.

(** [tag.stripped_strings]: the text nodes below the tag (comments are
    not among them), stripped, the empty ones left out. *)
Definition stripped_strings (e : PageElement) : list string :=
  flat_map (fun d => match d with
                     | NavigableString s =>
                         match PyStr.strip s with
                         | EmptyString => []
                         | t => [t]
                         end
                     | _ => []
                     end) (tag_descendants e).

(** [[link['href'] for link in soup.find_all('a', href=True)]] *)
Definition find_all_a_href (soup : Soup) : list string :=
  flat_map (fun d => match d with
                     | Tag n _ (Some h) _ => if String.eqb n "a" then [h] else []
                     | _ => []
                     end) (descendants soup).

End Bs4.

(* ===================================================================== *)
(** ** Collaborators *)
(* ===================================================================== *)

(** What [urlparse] returns; the program reads [netloc] only. *)
Record ParseResult : Type := {
  scheme : string;
  netloc : string;
  path : string;
  query : string;
  fragment : string
}.

(** What [requests.get] returns. *)
Record Response : Type := {
  status_code : Z;
  text : string
}.

(** The libraries and services the program calls.
    - [urlparse url] and [urljoin base href] return or raise [ValueError].
    - [requests_get earlier url] is the outcome of [requests.get(url,
      timeout=10)] when [earlier] lists the URLs requested before in this
      run, oldest first: a response, or a transport error.
    - [http_error_msg r] is [str] of the [HTTPError] that
      [r.raise_for_status()] raises.
    - [BeautifulSoup text] is the tree of [BeautifulSoup(text,
      'html.parser')].
    - [messages_create prompt] is the outcome of
      [client.messages.create(...)] for that prompt: the [text] of the
      content blocks of the response, or an error. *)
Record World : Type := {
  urlparse : string -> Exc ParseResult;
  urljoin : string -> string -> Exc string;
  requests_get : list string -> string -> Exc Response;
  http_error_msg : Response -> string;
  BeautifulSoup : string -> Exc Soup;
  messages_create : string -> Exc (list string)
}.

(** [response.raise_for_status()]: raises for a status from 400 to 599. *)
Definition raise_for_status (W : World) (r : Response) : Exc unit :=
  if (400 <=? status_code r) && (status_code r <? 600)
  then Raise (Exception (http_error_msg W r))
  else Return tt.

(* ===================================================================== *)
(** ** Program state *)
(* ===================================================================== *)

Module DocumentChunk.
(** [title] is annotated [str] in the source; at run time it holds
    whatever [soup.title.string] evaluates to, which may be [None]. *)
Record t : Type := {
  content : string;
  url : string;
  title : option string
}.
End DocumentChunk.

Record DocumentProcessor : Type := {
  base_url : string;
  visited_urls : gset string;
  chunks : list DocumentChunk.t
}.

Inductive LogLevel : Type := INFO | ERROR.

(** What the program does to the outside: the records it hands to
    [logger] and the URLs it passes to [requests.get], oldest first. *)
Record Env : Type := {
  log : list (LogLevel * string);
  requests : list string
}.

(** State of a [DocumentProcessor] method. *)
Record ProcState : Type := {
  self : DocumentProcessor;
  env : Env
}.

(** State of a [QAAgent] method; [processor] is [self.processor]. *)
Record AgentState : Type := {
  processor : option DocumentProcessor;
  agent_env : Env
}.

Class HasEnv (S : Type) : Type := {
  get_env : S -> Env;
  set_env : Env -> S -> S
}.

#[global] Instance ProcState_env : HasEnv ProcState := {|
  get_env := env;
  set_env e s := {| self := self s; env := e |}
|}.

#[global] Instance AgentState_env : HasEnv AgentState := {|
  get_env := agent_env;
  set_env e s := {| processor := processor s; agent_env := e |}
|}.

(** [logger.info(msg)], [logger.error(msg)] *)
Definition logger {S} `{HasEnv S} (level : LogLevel) (msg : string) : M S unit :=
  modify (fun s =>
    set_env {| log := log (get_env s) ++ [(level, msg)];
               requests := requests (get_env s) |} s).

(** [DocumentProcessor(base_url)] *)
Definition DocumentProcessor_init (base : string) : DocumentProcessor :=
  {| base_url := base; visited_urls := ∅; chunks := [] |}.

(** [self.visited_urls.add(url)] *)
Definition add_visited (u : string) (s : ProcState) : ProcState :=
  {| self := {| base_url := base_url (self s);
                visited_urls := {[u]} ∪ visited_urls (self s);
                chunks := chunks (self s) |};
     env := env s |}.

(** [self.chunks.append(chunk)] *)
Definition append_chunk (c : DocumentChunk.t) (s : ProcState) : ProcState :=
  {| self := {| base_url := base_url (self s);
                visited_urls := visited_urls (self s);
                chunks := chunks (self s) ++ [c] |};
     env := env s |}.

(* ===================================================================== *)
(** ** DocumentProcessor *)
(* ===================================================================== *)

Section Program.

Context (W : World).

Definition excluded_substrings : list string := [".png"; ".jpg"; ".css"; ".js"].

(** [is_valid_url], lines 40-48. *)
Definition is_valid_url (base url : string) : Exc bool :=
  catch
    (exc_bind (urlparse W url) (fun parsed =>
     exc_bind (urlparse W base) (fun base_parsed =>
     Return (String.eqb (netloc parsed) (netloc base_parsed) &&
             negb (existsb (fun ext => PyStr.contains ext url)
                           excluded_substrings)))))
    (fun _ => Return false).

(** [extract_content], lines 50-72.  The elements are removed from the
    tree the caller passed in, so the result carries the tree as the
    call leaves it.  A [Tag] is true in a condition even when it has no
    children, so [not main_content] holds for [None] only.  No step of
    the body raises on a tree, so the handler of the [try] is not
    reached. *)
Definition extract_content (soup : Soup) (url : string)
  : option DocumentChunk.t * Soup :=
  let soup' :=
    Bs4.decompose_all ["nav"; "header"; "footer"; "script"; "style"] soup in
  let main_content :=
    match Bs4.select_one ["main"; "article"] ["content"; "documentation"] soup' with
    | Some m => Some m
    | None => Bs4.select_one ["body"] [] soup'
    end in
  match main_content with
  | None => (None, soup')
  | Some m =>
      let title :=
        match Bs4.title soup' with
        | Some t => Bs4.string_ t
        | None => Some url
        end in
      let content := PyStr.join " " (Bs4.stripped_strings m) in
      (Some {| DocumentChunk.content := content;
               DocumentChunk.url := url;
               DocumentChunk.title := title |}, soup')
  end.

(** [requests.get(url, timeout=10)]: the request goes out, then the call
    returns or raises. *)
Definition http_get (url : string) : M ProcState Response :=
  fun s =>
    let earlier := requests (env s) in
    let s' := {| self := self s;
                 env := {| log := log (env s);
                           requests := earlier ++ [url] |} |} in
    match requests_get W earlier url with
    | Return r => Returned r s'
    | Raise e => Raised e s'
    end.

(** [crawl_page], lines 74-97.  A [DocumentChunk] is true in a condition,
    so [if chunk] holds unless [chunk] is [None]. *)
Fixpoint crawl_page (fuel : nat) (url : string) : M ProcState unit :=
  match fuel with
  | O => fun s => OutOfFuel s
  | S fuel' =>
      let* s := get in
      let* skip :=
        (if bool_decide (url ∈ visited_urls (self s)) then ret true
         else let* valid := lift (is_valid_url (base_url (self s)) url) in
              ret (negb valid)) in
      if skip then ret tt
      else
        try_except
          (let* response := http_get url in
           let* _ := lift (raise_for_status W response) in
           let* _ := modify (add_visited url) in
           let* soup := lift (BeautifulSoup W (text response)) in
           let '(chunk, soup') := extract_content soup url in
           let* _ := match chunk with
                     | Some c => modify (append_chunk c)
                     | None => ret tt
                     end in
           for_each (Bs4.find_all_a_href soup') (fun href =>
             let* next_url := lift (urljoin W url href) in
             crawl_page fuel' next_url))
          (fun e => logger ERROR ("Error crawling " +:+ url +:+ ": " +:+ exc_str e))
  end.

(** [executor.submit(task)] inside [with ThreadPoolExecutor(...)]: the
    task runs on a worker and the block waits for it; what the task
    raises is kept by the future, which the program never reads. *)
Definition executor_submit {S} (task : M S unit) : M S unit :=
  fun s =>
    match task s with
    | Raised _ s' => Returned tt s'
    | r => r
    end.

(** [process_documentation], lines 99-102. *)
Definition process_documentation (fuel : nat) : M ProcState unit :=
  let* s := get in
  executor_submit (crawl_page fuel (base_url (self s))).

(* =================================================================== *)
(** ** QAAgent *)
(* =================================================================== *)

(** Run a method of [self.processor]; on [None] the attribute access
    raises [AttributeError]. *)
Definition on_processor {A} (m : M ProcState A) : M AgentState A :=
  fun s =>
    match processor s with
    | None =>
        Raised (Exception "'NoneType' object has no attribute 'process_documentation'") s
    | Some p =>
        let back (s' : ProcState) :=
          {| processor := Some (self s'); agent_env := env s' |} in
        match m {| self := p; env := agent_env s |} with
        | Returned a s' => Returned a (back s')
        | Raised e s' => Raised e (back s')
        | OutOfFuel s' => OutOfFuel (back s')
        end
    end.

Definition len_chunks (s : AgentState) : nat :=
  match processor s with
  | Some p => length (chunks p)
  | None => 0%nat
  end.

(** [initialize_with_url], lines 111-120. *)
Definition initialize_with_url (fuel : nat) (url : string) : M AgentState unit :=
  try_except
    (let* _ := modify (fun s => {| processor := Some (DocumentProcessor_init url);
                                   agent_env := agent_env s |}) in
     let* _ := logger INFO ("Starting documentation processing for " +:+ url) in
     let* _ := on_processor (process_documentation fuel) in
     let* s := get in
     logger INFO ("Processed " +:+ pretty (len_chunks s) +:+ " documentation chunks"))
    (fun e =>
       let* _ := logger ERROR ("Error initializing agent: " +:+ exc_str e) in
       raise e).

(** [format_context], lines 122-130.  A [DocumentProcessor] is true in a
    condition; a list is true unless it is empty. *)
Definition format_chunk (chunk : DocumentChunk.t) : string :=
  "Source: " +:+ DocumentChunk.url chunk +:+ PyStr.nl +:+
  "Title: " +:+ PyStr.str_opt (DocumentChunk.title chunk) +:+ PyStr.nl +:+
  "Content: " +:+ DocumentChunk.content chunk +:+ PyStr.nl +:+ PyStr.nl.

Definition format_context (p : option DocumentProcessor) : string :=
  match p with
  | None => ""
  | Some p =>
      match chunks p with
      | [] => ""
      | cs =>
          fold_left (fun context chunk => context +:+ format_chunk chunk) cs
            ("Here is the relevant documentation:" +:+ PyStr.nl +:+ PyStr.nl)
      end
  end.

Definition uninitialized_message : string :=
  "Error: Documentation not initialized. Please provide a help website URL first.".

(** The f-string of lines 139-148. *)
Definition prompt_of (context question : string) : string :=
  let indent := "            " in
  "You are a helpful documentation assistant. Based on the provided documentation, "
    +:+ PyStr.nl +:+ indent +:+
  "answer the following question. If the information is not available in the documentation, "
    +:+ PyStr.nl +:+ indent +:+
  "clearly state that. Include relevant source URLs in your answer."
    +:+ PyStr.nl +:+ PyStr.nl +:+ indent +:+
  "Documentation Context:"
    +:+ PyStr.nl +:+ indent +:+ context
    +:+ PyStr.nl +:+ PyStr.nl +:+ indent +:+
  "Question: " +:+ question
    +:+ PyStr.nl +:+ PyStr.nl +:+ indent +:+
  "Please provide a clear and concise answer based solely on the documentation provided above.".

(** [answer_question], lines 132-162.  [response.content[0]] raises
    [IndexError] on an empty list. *)
Definition answer_question (question : string) : M AgentState string :=
  let* s := get in
  match processor s with
  | None => ret uninitialized_message
  | Some _ =>
      try_except
        (let prompt := prompt_of (format_context (processor s)) question in
         let* content := lift (messages_create W prompt) in
         match content with
         | [] => raise (Exception "list index out of range")
         | block :: _ => ret block
         end)
        (fun e =>
           let* _ := logger ERROR ("Error generating answer: " +:+ exc_str e) in
           ret ("Error generating answer: " +:+ exc_str e))
  end.

End Program.

(** [QAAgent(api_key)]: no processor yet. *)
Definition QAAgent_init : AgentState :=
  {| processor := None; agent_env := {| log := []; requests := [] |} |}.

(** State in which [DocumentProcessor(base)] starts to crawl. *)
Definition crawl_start (base : string) : ProcState :=
  {| self := DocumentProcessor_init base; env := {| log := []; requests := [] |} |}.

(* ===================================================================== *)
(** ** main *)
(* ===================================================================== *)

(** What [input] finds on standard input: a line, without its newline, or
    a [KeyboardInterrupt] delivered while the call waits.  The end of the
    list is the end of the input, on which [input] raises [EOFError]. *)
Inductive StdinEvent : Type :=
| Line (text : string)
| Interrupt.

(** How the question loop is left without an [Exception]: by the [break]
    or by [KeyboardInterrupt]. *)
Inductive LoopExit : Type :=
| Quit
| Interrupted.

(** State of [main]: the agent and what was written to standard output,
    oldest first. *)
Record ConsoleState : Type := {
  agent : AgentState;
  stdout : list string
}.

(** [sys.stdout.write(text)] *)
Definition write (text : string) : M ConsoleState unit :=
  modify (fun s => {| agent := agent s; stdout := stdout s ++ [text] |}).

(** [print(text)] *)
Definition print (text : string) : M ConsoleState unit :=
  write (text +:+ PyStr.nl).

(** Run a method of [agent]. *)
Definition on_agent {A} (m : M AgentState A) : M ConsoleState A :=
  fun s =>
    let back (a : AgentState) := {| agent := a; stdout := stdout s |} in
    match m (agent s) with
    | Returned x a => Returned x (back a)
    | Raised e a => Raised e (back a)
    | OutOfFuel a => OutOfFuel (back a)
    end.

(** [c.lower()] and [s.lower()] on the ASCII range. *)
Definition lower_char (c : ascii) : ascii :=
  let n := nat_of_ascii c in
  if ((65 <=? n) && (n <=? 90))%nat then ascii_of_nat (n + 32) else c.

Fixpoint lower (s : string) : string :=
  match s with
  | EmptyString => EmptyString
  | String c s' => String (lower_char c) (lower s')
  end.

Definition input_prompt : string :=
  PyStr.nl +:+ "Enter your question (or 'quit' to exit): ".

Definition api_key : string := "Place_api_key".

Section Main.

Context (W : World).

(** The [while True] loop of [main], lines 189-195, over what standard
    input holds.  [input] writes its prompt, then reads. *)
Fixpoint question_loop (events : list StdinEvent) : M ConsoleState LoopExit :=
  let* _ := write input_prompt in
  match events with
  | [] => raise (Exception "EOF when reading a line")
  | Interrupt :: _ => ret Interrupted
  | Line question :: rest =>
      if String.eqb (lower question) "quit" then ret Quit
      else
        let* answer := on_agent (answer_question W question) in
        let* _ := print (PyStr.nl +:+ "Answer: " +:+ answer) in
        question_loop rest
  end.

(** [main], lines 164-200, from the parsed [--url] argument on, with
    [events] on standard input. *)
Definition main (fuel : nat) (url : string) (events : list StdinEvent)
  : M ConsoleState unit :=
  if String.eqb api_key ""
  then print "Error: ANTHROPIC_API_KEY environment variable not set"
  else
    let* _ := modify (fun s => {| agent := {| processor := None;
                                              agent_env := agent_env (agent s) |};
                                  stdout := stdout s |}) in
    try_except
      (let* _ := print ("Initializing agent with URL: " +:+ url) in
       let* _ := on_agent (initialize_with_url W fuel url) in
       let* _ := print "Documentation processed. Ready for questions!" in
       let* exit := question_loop events in
       match exit with
       | Quit => ret tt
       | Interrupted => print (PyStr.nl +:+ "Exiting...")
       end)
      (fun e => print ("Error: " +:+ exc_str e)).

End Main.

(** The state in which [main] starts. *)
Definition console_start : ConsoleState :=
  {| agent := QAAgent_init; stdout := [] |}.

(* ===================================================================== *)
(** ** A reference world for the examples *)
(* ===================================================================== *)

(** [urllib.parse] as far as the examples need it.  [urlsplit] follows
    CPython's function of that name step by step: strip leading control
    characters and spaces, drop tab, CR and LF, split off a scheme, split
    off the authority after [//] up to the first of [/?#], refuse an
    authority with an unmatched bracket, split off fragment and query.  It
    leaves out the checks CPython runs on a bracketed host and on a
    non-ASCII authority, so it is meant for ASCII URLs with a plain host. *)
Module UrlLib.

Definition in_chars (cs : string) (c : ascii) : bool :=
  existsb (Ascii.eqb c) (list_ascii_of_string cs).

Definition isalpha (c : ascii) : bool :=
  let n := nat_of_ascii c in
  ((65 <=? n) && (n <=? 90) || (97 <=? n) && (n <=? 122))%nat.

Definition isdigit (c : ascii) : bool :=
  let n := nat_of_ascii c in ((48 <=? n) && (n <=? 57))%nat.

Definition is_scheme_char (c : ascii) : bool :=
  isalpha c || isdigit c || in_chars "+-." c.

Definition lower_char (c : ascii) : ascii :=
  let n := nat_of_ascii c in
  if ((65 <=? n) && (n <=? 90))%nat then ascii_of_nat (n + 32) else c.

Fixpoint lower (s : string) : string :=
  match s with
  | EmptyString => EmptyString
  | String c s' => String (lower_char c) (lower s')
  end.

Fixpoint forall_chars (p : ascii -> bool) (s : string) : bool :=
  match s with
  | EmptyString => true
  | String c s' => p c && forall_chars p s'
  end.

Fixpoint remove_chars (p : ascii -> bool) (s : string) : string :=
  match s with
  | EmptyString => EmptyString
  | String c s' => if p c then remove_chars p s' else String c (remove_chars p s')
  end.

Fixpoint lstrip_chars (p : ascii -> bool) (s : string) : string :=
  match s with
  | EmptyString => EmptyString
  | String c s' => if p c then lstrip_chars p s' else s
  end.

(** [(s[:i], s[i:])] for the first index [i] whose character satisfies
    [p], and [(s, "")] when there is none. *)
Fixpoint break_at (p : ascii -> bool) (s : string) : string * string :=
  match s with
  | EmptyString => (EmptyString, EmptyString)
  | String c s' =>
      if p c then (EmptyString, s)
      else let '(a, b) := break_at p s' in (String c a, b)
  end.

(** [s.split(c, 1)], with [""] for the second part when [c] is absent. *)
Definition split_once (c : ascii) (s : string) : string * string :=
  match break_at (Ascii.eqb c) s with
  | (a, String _ b) => (a, b)
  | (a, EmptyString) => (a, EmptyString)
  end.

Definition tail2 (s : string) : string :=
  match s with
  | String _ (String _ r) => r
  | _ => EmptyString
  end.

Definition urlsplit (url : string) : Exc ParseResult :=
  let url := lstrip_chars (fun c => (nat_of_ascii c <=? 32)%nat) url in
  let url := remove_chars (fun c => (nat_of_ascii c =? 9)%nat ||
                                    (nat_of_ascii c =? 10)%nat ||
                                    (nat_of_ascii c =? 13)%nat) url in
  let '(sch, url) :=
    match break_at (Ascii.eqb ":") url with
    | (String c0 before, String _ rest) =>
        if isalpha c0 && forall_chars is_scheme_char (String c0 before)
        then (lower (String c0 before), rest)
        else (EmptyString, url)
    | _ => (EmptyString, url)
    end in
  let '(loc, url) :=
    if PyStr.startswith "//" url
    then break_at (in_chars "/?#") (tail2 url)
    else (EmptyString, url) in
  if xorb (PyStr.contains "[" loc) (PyStr.contains "]" loc)
  then Raise (Exception "Invalid IPv6 URL")
  else
    let '(url, frag) := split_once "#" url in
    let '(url, qry) := split_once "?" url in
    Return {| scheme := sch; netloc := loc; path := url;
              query := qry; fragment := frag |}.

(** [urlunsplit] for a scheme that takes an authority (http, https). *)
Definition urlunsplit (sch loc pth qry frag : string) : string :=
  let url := if negb (String.eqb pth "") && negb (PyStr.startswith "/" pth)
             then "/" +:+ pth else pth in
  let url := "//" +:+ loc +:+ url in
  let url := if String.eqb sch "" then url else sch +:+ ":" +:+ url in
  let url := if String.eqb qry "" then url else url +:+ "?" +:+ qry in
  if String.eqb frag "" then url else url +:+ "#" +:+ frag.

(** The part of a path up to and including its last slash. *)
Fixpoint dirname (s : string) : string :=
  match s with
  | EmptyString => EmptyString
  | String c s' =>
      match dirname s' with
      | EmptyString => if Ascii.eqb c "/" then "/" else EmptyString
      | d => String c d
      end
  end.

(** [urljoin] for http and https bases: an empty reference gives the
    base; a reference with another scheme stands for itself; one with an
    authority is put together again from its parts; otherwise the
    reference's path is merged with the base's.  Dot segments are not
    removed and path parameters are not split off, so the result is
    CPython's for references that have neither. *)
Definition urljoin (base href : string) : Exc string :=
  match href with
  | EmptyString => Return base
  | _ =>
      exc_bind (urlsplit base) (fun b =>
      exc_bind (urlsplit href) (fun u =>
        let sch := if String.eqb (scheme u) "" then scheme b else scheme u in
        if negb (String.eqb sch (scheme b)) then Return href
        else if negb (String.eqb (netloc u) "")
        then Return (urlunsplit sch (netloc u) (path u) (query u) (fragment u))
        else if String.eqb (path u) ""
        then Return (urlunsplit sch (netloc b) (path b)
                       (if String.eqb (query u) "" then query b else query u)
                       (fragment u))
        else if PyStr.startswith "/" (path u)
        then Return (urlunsplit sch (netloc b) (path u) (query u) (fragment u))
        else Return (urlunsplit sch (netloc b) (dirname (path b) +:+ path u)
                       (query u) (fragment u))))
  end.

End UrlLib.

(** A small web: a few sites, the pages they serve and the trees the
    parser builds for them. *)
Module Demo.

Definition el (name : string) (kids : list PageElement) : PageElement :=
  Tag name [] None kids.

Definition link (href : string) (label : string) : PageElement :=
  Tag "a" [] (Some href) [NavigableString label].

(** http://docs.test/ : navigation chrome around a [main] with two
    paragraphs, then a list of links: to a page, to an image on another
    host, to a style sheet, to a JSON document and twice to a page that
    is gone. *)
Definition home_html : string :=
  "<html><head><title>Docs</title><style>p{}</style><script>var x;</script></head>" +:+
  "<body><nav><a href='/nav-only'>Menu</a></nav><header>Top</header>" +:+
  "<main><p>A</p><p>B</p></main>" +:+
  "<ul><a href='/docs/q'>Q</a>" +:+
  "<a href='https://cdn.docs.test/logo.png'>logo</a><a href='/style.css'>css</a>" +:+
  "<a href='/data.json'>data</a><a href='/gone'>one</a><a href='/gone'>two</a></ul>" +:+
  "<footer>Bottom</footer></body></html>".

Definition home_tree : Soup :=
  [el "html"
     [el "head" [el "title" [NavigableString "Docs"];
                 el "style" [Comment "p{}"];
                 el "script" [Comment "var x;"]];
      el "body" [el "nav" [link "/nav-only" "Menu"];
                 el "header" [NavigableString "Top"];
                 el "main" [el "p" [NavigableString "A"];
                            el "p" [NavigableString "B"]];
                 el "ul" [link "/docs/q" "Q";
                          link "https://cdn.docs.test/logo.png" "logo";
                          link "/style.css" "css";
                          link "/data.json" "data";
                          link "/gone" "one";
                          link "/gone" "two"];
                 el "footer" [NavigableString "Bottom"]]]].

(** http://docs.test/docs/q : an empty title element, text in the body. *)
Definition q_html : string :=
  "<html><head><title></title></head><body><p>Answer</p></body></html>".

Definition q_tree : Soup :=
  [el "html" [el "head" [el "title" []];
              el "body" [el "p" [NavigableString "Answer"]]]].

(** http://empty.test/ : a body with nothing in it. *)
Definition empty_html : string := "<html><body></body></html>".

Definition empty_tree : Soup := [el "html" [el "body" []]].

Definition parse (text : string) : Exc Soup :=
  if String.eqb text home_html then Return home_tree
  else if String.eqb text q_html then Return q_tree
  else if String.eqb text empty_html then Return empty_tree
  else Return [].

(** The servers answer the same way whatever was requested before:
    http://choice.test/ answers 300 (Multiple Choices) with a page and no
    redirection, http://docs.test/gone and every unknown URL is a 404,
    down.test does not answer. *)
Definition serve (earlier : list string) (url : string) : Exc Response :=
  if String.eqb url "http://docs.test/"
  then Return {| status_code := 200; text := home_html |}
  else if String.eqb url "http://docs.test/docs/q"
  then Return {| status_code := 200; text := q_html |}
  else if String.eqb url "http://empty.test/"
  then Return {| status_code := 200; text := empty_html |}
  else if String.eqb url "http://choice.test/"
  then Return {| status_code := 300; text := q_html |}
  else if String.eqb url "http://down.test/"
  then Raise (Exception "Connection refused")
  else Return {| status_code := 404; text := "" |}.

(** The answer service is out of order. *)
Definition create (prompt : string) : Exc (list string) :=
  Raise (Exception "overloaded").

Definition world : World :=
  {| urlparse := UrlLib.urlsplit;
     urljoin := UrlLib.urljoin;
     requests_get := serve;
     http_error_msg := fun r => "Client Error";
     BeautifulSoup := parse;
     messages_create := create |}.

End Demo.


(* ===================================================================== *)
(** ** The crawl as a transition system *)
(* ===================================================================== *)

(** State after [requests.get(url)] has sent its request. *)
Definition record_request (url : string) (s : ProcState) : ProcState :=
  {| self := self s;
     env := {| log := log (env s); requests := requests (env s) ++ [url] |} |}.

(** State after a [logger] call. *)
Definition record_log (entry : LogLevel * string) (s : ProcState) : ProcState :=
  {| self := self s;
     env := {| log := log (env s) ++ [entry]; requests := requests (env s) |} |}.

(** [fetched_ok W earlier url r]: the request for [url], sent after the
    requests [earlier], came back with [r], and [raise_for_status] let
    it pass. *)
Definition fetched_ok (W : World) (earlier : list string) (url : string)
    (r : Response) : Prop :=
  requests_get W earlier url = Return r /\ raise_for_status W r = Return tt.

(** The call ended or was cut short in state [s']; it did not raise. *)
Definition ends_in {A} (r : Res ProcState A) (s' : ProcState) : Prop :=
  (exists a, r = Returned a s') \/ r = OutOfFuel s'.

(** The call returned or raised; it was not cut short. *)
Definition settles {A} (r : Res ProcState A) : Prop :=
  match r with
  | OutOfFuel _ => False
  | _ => True
  end.

(** The writes [crawl_page] performs, each with what the code has
    established when it performs it.  Nothing is written between the
    request and [visited_urls.add], so a request that comes back and
    passes [raise_for_status] is one step with the insertion. *)
Inductive crawl_step (W : World) : ProcState -> ProcState -> Prop :=
| step_fetch_failed s url :
    url ∉ visited_urls (self s) ->
    is_valid_url W (base_url (self s)) url = Return true ->
    (forall r, ~ fetched_ok W (requests (env s)) url r) ->
    crawl_step W s (record_request url s)
| step_fetched s url r :
    url ∉ visited_urls (self s) ->
    is_valid_url W (base_url (self s)) url = Return true ->
    fetched_ok W (requests (env s)) url r ->
    crawl_step W s (add_visited url (record_request url s))
| step_chunk s (earlier : list string) url r soup c soup' :
    requests (env s) = (earlier ++ [url])%list ->
    url ∈ visited_urls (self s) ->
    fetched_ok W earlier url r ->
    BeautifulSoup W (text r) = Return soup ->
    extract_content soup url = (Some c, soup') ->
    crawl_step W s (append_chunk c s)
| step_log s entry :
    crawl_step W s (record_log entry s).

(** [substring sub s]: [sub] occurs in [s]. *)
Definition substring (sub s : string) : Prop :=
  exists pre post, s = pre +:+ sub +:+ post.

(** The two halves of the filter of [is_valid_url]. *)
Definition same_netloc (W : World) (base url : string) : Prop :=
  exists parsed base_parsed,
    urlparse W url = Return parsed /\
    urlparse W base = Return base_parsed /\
    netloc parsed = netloc base_parsed.

Definition no_excluded_substring (url : string) : Prop :=
  forall ext, In ext excluded_substrings -> ~ substring ext url.

Definition admissible (W : World) (base url : string) : Prop :=
  same_netloc W base url /\ no_excluded_substring url.

(** The filter as the specification words it: same host, and a path that
    does not end in one of the four extensions. *)
Definition spec_admissible (W : World) (base url : string) : Prop :=
  exists parsed base_parsed,
    urlparse W url = Return parsed /\
    urlparse W base = Return base_parsed /\
    netloc parsed = netloc base_parsed /\
    forall ext, In ext excluded_substrings -> PyStr.endswith ext (path parsed) = false.

(** A record is backed by the page it was taken from: a request for its
    URL that came back and passed [raise_for_status], and a content region
    found in the parsed page after the chrome was removed. *)
Definition chunk_backed (W : World) (reqs : list string) (c : DocumentChunk.t) : Prop :=
  exists (earlier later : list string) r soup soup',
    reqs = (earlier ++ DocumentChunk.url c :: later)%list /\
    fetched_ok W earlier (DocumentChunk.url c) r /\
    BeautifulSoup W (text r) = Return soup /\
    extract_content soup (DocumentChunk.url c) = (Some c, soup').

(** The page of the extraction scenario: a title, and chrome with
    arbitrary content around a [main] that holds the text nodes A and B in
    two paragraphs with white space between them. *)
Definition scenario_page (title_text : string)
    (nav_kids header_kids footer_kids script_kids style_kids : list PageElement) : Soup :=
  [Demo.el "html"
     [Demo.el "head" [Demo.el "title" [NavigableString title_text];
                      Demo.el "style" style_kids;
                      Demo.el "script" script_kids];
      Demo.el "body" [Demo.el "nav" nav_kids;
                      Demo.el "header" header_kids;
                      Demo.el "main" [Demo.el "p" [NavigableString "A"];
                                      NavigableString (PyStr.nl +:+ "  ");
                                      Demo.el "p" [NavigableString "B"]];
                      Demo.el "footer" footer_kids]]].

(** The nodes at and below [e] that do not stand in an element with one
    of [names] below [e], in document order. *)
Fixpoint outside (names : list string) (e : PageElement) : list PageElement :=
  e :: match e with
       | Tag _ _ _ kids =>
           flat_map (fun k => if Bs4.has_name names k then [] else outside names k) kids
       | _ => []
       end.

(** The nodes of the page that are not, and do not stand in, an element
    with one of [names]. *)
Definition outside_all (names : list string) (soup : Soup) : list PageElement :=
  flat_map (fun k => if Bs4.has_name names k then [] else outside names k) soup.

(** The text nodes below [e] that do not stand in an element with one of
    [names], stripped, the empty ones left out. *)
Definition outside_strings (names : list string) (e : PageElement) : list string :=
  flat_map (fun d => match d with
                     | NavigableString s =>
                         match PyStr.strip s with
                         | EmptyString => []
                         | t => [t]
                         end
                     | _ => []
                     end) (tl (outside names e)).

(** The [main] of the scenario: two paragraphs with the text nodes A and
    B. *)
Definition main_A_B : PageElement :=
  Demo.el "main" [Demo.el "p" [NavigableString "A"];
                  Demo.el "p" [NavigableString "B"]].

(** Pages with nav, header, footer, script and style elements and that
    [main]: one with a [div] of class content before the [main], one with
    an [article] before it, one with the [main] inside the [header]. *)
Definition page_with (header_kids before_main : list PageElement) : Soup :=
  [Demo.el "html"
     [Demo.el "head" [Demo.el "title" [NavigableString "T"];
                      Demo.el "style" [Comment "p{}"];
                      Demo.el "script" [Comment "var x;"]];
      Demo.el "body" ([Demo.el "nav" [NavigableString "Menu"];
                       Demo.el "header" header_kids] ++
                      before_main ++
                      [Demo.el "footer" [NavigableString "Bottom"]])]]%list.

Definition content_first_page : Soup :=
  page_with [NavigableString "Top"]
            [Tag "div" ["content"] None [NavigableString "X"]; main_A_B].

Definition article_first_page : Soup :=
  page_with [NavigableString "Top"]
            [Demo.el "article" [NavigableString "News"]; main_A_B].

Definition main_in_header_page : Soup :=
  page_with [main_A_B] [Demo.el "p" [NavigableString "Z"]].

(* ===================================================================== *)
(** ** Pages, answers and transcripts *)
(* ===================================================================== *)

(** The reference world with an answer service that replies. *)
Definition answering_world : World :=
  {| urlparse := UrlLib.urlsplit;
     urljoin := UrlLib.urljoin;
     requests_get := Demo.serve;
     http_error_msg := fun r => "Client Error";
     BeautifulSoup := Demo.parse;
     messages_create := fun prompt => Return ["See http://docs.test/"; "second block"] |}.

(** A site whose front page has three links, the second with an
    unmatched bracket, on which [urljoin] raises. *)
Definition bracket_html : string :=
  "<html><body><a href='/first'>1</a><a href='http://[::1'>2</a>" +:+
  "<a href='/never'>3</a></body></html>".

Definition bracket_tree : Soup :=
  [Demo.el "html"
     [Demo.el "body" [Demo.link "/first" "1";
                      Demo.link "http://[::1" "2";
                      Demo.link "/never" "3"]]].

Definition bracket_world : World :=
  {| urlparse := UrlLib.urlsplit;
     urljoin := UrlLib.urljoin;
     requests_get := fun earlier url =>
       if String.eqb url "http://bracket.test/"
       then Return {| status_code := 200; text := bracket_html |}
       else Return {| status_code := 200; text := Demo.empty_html |};
     http_error_msg := fun r => "Client Error";
     BeautifulSoup := fun text =>
       if String.eqb text bracket_html then Return bracket_tree
       else Demo.parse text;
     messages_create := Demo.create |}.

(** What lines 84-89 of [crawl_page] leave of a fetched page: the record
    [extract_content] returns, appended when there is one; nothing when
    the parser raises. *)
Definition store_page (W : World) (url : string) (r : Response) (s : ProcState)
  : ProcState :=
  match BeautifulSoup W (text r) with
  | Return soup =>
      match fst (extract_content soup url) with
      | Some c => append_chunk c s
      | None => s
      end
  | Raise _ => s
  end.

(** The crawl page by page: a request that fails, a page that is fetched,
    marked visited and stored in one go, a log record. *)
Inductive page_step (W : World) : ProcState -> ProcState -> Prop :=
| page_failed s url :
    url ∉ visited_urls (self s) ->
    is_valid_url W (base_url (self s)) url = Return true ->
    (forall r, ~ fetched_ok W (requests (env s)) url r) ->
    page_step W s (record_request url s)
| page_fetched s url r :
    url ∉ visited_urls (self s) ->
    is_valid_url W (base_url (self s)) url = Return true ->
    fetched_ok W (requests (env s)) url r ->
    page_step W s (store_page W url r (add_visited url (record_request url s)))
| page_log s entry :
    page_step W s (record_log entry s).

(** The answer [answer_question] gives for a question when the agent has
    the processor [p]: the first content block, or the error message. *)
Definition answer_of (W : World) (p : DocumentProcessor) (question : string) : string :=
  match messages_create W (prompt_of (format_context (Some p)) question) with
  | Return (block :: _) => block
  | Return [] => "Error generating answer: list index out of range"
  | Raise e => "Error generating answer: " +:+ exc_str e
  end.

(** A line that ends the question loop. *)
Definition is_quit (event : StdinEvent) : bool :=
  match event with
  | Line text => String.eqb (lower text) "quit"
  | Interrupt => false
  end.

Definition is_question (event : StdinEvent) : bool :=
  match event with
  | Line text => negb (String.eqb (lower text) "quit")
  | Interrupt => false
  end.

(** What the loop writes for one question. *)
Definition exchange (W : World) (p : DocumentProcessor) (event : StdinEvent)
  : list string :=
  match event with
  | Line question =>
      [input_prompt;
       PyStr.nl +:+ "Answer: " +:+ answer_of W p question +:+ PyStr.nl]
  | Interrupt => []
  end.

(** State after [input] has written its prompt. *)
Definition prompted (s : ConsoleState) : ConsoleState :=
  {| agent := agent s; stdout := stdout s ++ [input_prompt] |}.

(** The [href] an element contributes to [find_all('a', href=True)]. *)
Definition href_of (d : PageElement) : list string :=
  match d with
  | Tag n _ (Some h) _ => if String.eqb n "a" then [h] else []
  | _ => []
  end.



(** No string of [chars] is empty and none begins another, as with the
    encodings of characters. *)
Definition prefix_code (chars : list string) : bool :=
  forallb (fun w =>
             negb (String.eqb w "") &&
             forallb (fun w' => implb (PyStr.startswith w w') (String.eqb w w')) chars)
          chars.

(** The URLs of the records, in order. *)
Definition chunk_urls (p : DocumentProcessor) : list string :=
  List.map DocumentChunk.url (chunks p).

(* ===================================================================== *)
(** ** Strings *)
(* ===================================================================== *)

Lemma startswith_spec (p s : string) :
  PyStr.startswith p s = true <-> exists post, s = p +:+ post.
Proof.
  revert s. induction p as [|a p IH]; intros s; simpl.
  - split; [intros _; now exists s | reflexivity].
  - destruct s as [|b s]; simpl.
    + split; [discriminate | intros [post H]; discriminate].
    + rewrite andb_true_iff, Ascii.eqb_eq, IH. split.
      * intros [-> [post ->]]. now exists post.
      * intros [post H]. injection H as -> ->. split; [reflexivity | now exists post].
Qed.

Lemma contains_spec (sub s : string) :
  PyStr.contains sub s = true <-> substring sub s.
Proof.
  unfold substring. induction s as [|c s IH]; simpl.
  - rewrite orb_false_r, startswith_spec. split.
    + intros [post H]. now exists "", post.
    + intros [pre [post H]]. destruct pre; simpl in H; [now exists post | discriminate].
  - rewrite orb_true_iff, startswith_spec, IH. split.
    + intros [[post H] | [pre [post H]]].
      * now exists "", post.
      * exists (String c pre), post. simpl. now rewrite H.
    + intros [pre [post H]]. destruct pre as [|c' pre]; simpl in H.
      * left. now exists post.
      * right. injection H as -> ->. now exists pre, post.
Qed.

Lemma endswith_spec (suf s : string) :
  PyStr.endswith suf s = true <-> exists pre, s = pre +:+ suf.
Proof.
  induction s as [|c s IH]; simpl.
  - rewrite orb_false_r, String.eqb_eq. split.
    + intros ->. now exists "".
    + intros [pre H]. destruct pre; [symmetry; exact H | discriminate].
  - rewrite orb_true_iff, String.eqb_eq, IH. split.
    + intros [-> | [pre ->]]; [now exists "" | now exists (String c pre)].
    + intros [pre H]. destruct pre as [|c' pre]; simpl in H.
      * now left.
      * right. injection H as -> ->. now exists pre.
Qed.

(** A string that ends with [suf] contains it. *)
Lemma endswith_contains (suf s : string) :
  PyStr.endswith suf s = true -> PyStr.contains suf s = true.
Proof.
  rewrite endswith_spec, contains_spec. intros [pre ->].
  exists pre, "". f_equal. clear. induction suf as [|c suf IH]; [reflexivity |].
  change (String c suf +:+ "") with (String c (suf +:+ "")). now rewrite <- IH.
Qed.

Lemma no_excluded_substring_iff (url : string) :
  existsb (fun ext => PyStr.contains ext url) excluded_substrings = false
  <-> no_excluded_substring url.
Proof.
  unfold no_excluded_substring. split.
  - intros H ext Hin Hsub. apply contains_spec in Hsub.
    assert (existsb (fun ext => PyStr.contains ext url) excluded_substrings = true).
    { apply existsb_exists. eauto. }
    congruence.
  - intros H. apply not_true_is_false. intros Hex.
    apply existsb_exists in Hex as [ext [Hin Hc]].
    apply contains_spec in Hc. exact (H ext Hin Hc).
Qed.

(* ===================================================================== *)
(** ** The admissibility filter *)
(* ===================================================================== *)

Section Filter.

Context (W : World).

(** The [try] of [is_valid_url] turns every outcome into a boolean. *)
Lemma is_valid_url_returns (base url : string) :
  exists b, is_valid_url W base url = Return b.
Proof.
  unfold is_valid_url.
  destruct (urlparse W url) as [p|e]; simpl; [|eauto].
  destruct (urlparse W base) as [bp|e]; simpl; eauto.
Qed.

Lemma is_valid_url_true_iff (base url : string) :
  is_valid_url W base url = Return true <-> admissible W base url.
Proof.
  unfold is_valid_url, admissible, same_netloc.
  rewrite <- no_excluded_substring_iff.
  destruct (urlparse W url) as [p|e]; simpl.
  - destruct (urlparse W base) as [bp|e]; simpl.
    + split.
      * intros H. injection H as H. apply andb_true_iff in H as [Hn Hx].
        apply String.eqb_eq in Hn. apply negb_true_iff in Hx.
        split; [exists p, bp; auto | exact Hx].
      * intros [[p' [bp' [Hp [Hbp Hn]]]] Hx].
        injection Hp as <-. injection Hbp as <-.
        rewrite Hn, String.eqb_refl, Hx. reflexivity.
    + split; [discriminate | intros [[p' [bp' [_ [Hbp _]]]] _]; discriminate].
  - split; [discriminate | intros [[p' [bp' [Hp _]]] _]; discriminate].
Qed.

Lemma is_valid_url_parse_error (base url : string) (e : PyException) :
  urlparse W url = Raise e \/ urlparse W base = Raise e ->
  is_valid_url W base url = Return false.
Proof.
  unfold is_valid_url. intros [H | H].
  - now rewrite H.
  - destruct (urlparse W url); simpl; [now rewrite H | reflexivity].
Qed.

End Filter.

(* ===================================================================== *)
(** ** Every run of [crawl_page] is a sequence of crawl steps *)
(* ===================================================================== *)

(** Unfold one call of [crawl_page] up to the test of [visited_urls]. *)
Ltac enter_crawl_page :=
  cbn [crawl_page]; unfold bind at 1; unfold get at 1.

(** The test passed: the URL is new and the filter accepted it, so the
    call is at its [try]. *)
Ltac enter_try Hnin Hvalid :=
  enter_crawl_page;
  rewrite (bool_decide_eq_false_2 _ Hnin);
  unfold bind at 1; unfold bind at 1; rewrite Hvalid; cbn [lift ret negb].

Section Crawl.

Context (W : World).

Lemma for_each_steps {A} (body : A -> M ProcState unit) (xs : list A) :
  (forall x s, rtc (crawl_step W) s (res_state (body x s))) ->
  forall s, rtc (crawl_step W) s (res_state (for_each xs body s)).
Proof.
  intros Hbody. induction xs as [|x xs IH]; intros s; simpl.
  - apply rtc_refl.
  - unfold bind. specialize (Hbody x s).
    destruct (body x s) as [[] s1 | e s1 | s1]; simpl in Hbody; simpl; auto.
    eapply rtc_trans; [exact Hbody | apply IH].
Qed.

Lemma crawl_page_skip (fuel : nat) (url : string) (s : ProcState) :
  url ∈ visited_urls (self s) \/
  is_valid_url W (base_url (self s)) url = Return false ->
  crawl_page W (S fuel) url s = Returned tt s.
Proof.
  intros H. enter_crawl_page.
  destruct (decide (url ∈ visited_urls (self s))) as [Hin | Hnin].
  - rewrite (bool_decide_eq_true_2 _ Hin). reflexivity.
  - rewrite (bool_decide_eq_false_2 _ Hnin).
    destruct H as [H | H]; [contradiction |].
    unfold bind at 1. unfold bind at 1. rewrite H. reflexivity.
Qed.

(** What is raised inside the [try] of [crawl_page] ends as a log
    record. *)
Lemma try_log_steps (body : M ProcState unit) (msg : PyException -> string)
    (s0 s : ProcState) :
  rtc (crawl_step W) s0 (res_state (body s)) ->
  exists s', ends_in (try_except body (fun e => logger ERROR (msg e)) s) s' /\
             rtc (crawl_step W) s0 s'.
Proof.
  intros H. unfold try_except, ends_in.
  destruct (body s) as [[] s1 | e s1 | s1]; simpl in H.
  - exists s1. eauto.
  - exists (record_log (ERROR, msg e) s1). split; [left; exists tt; reflexivity |].
    eapply rtc_r; [exact H | apply step_log].
  - exists s1. eauto.
Qed.

Lemma link_steps (fuel : nat) (url href : string) (s : ProcState) :
  (forall u t, exists t', ends_in (crawl_page W fuel u t) t' /\ rtc (crawl_step W) t t') ->
  rtc (crawl_step W) s
    (res_state ((let* next_url := lift (urljoin W url href) in
                 crawl_page W fuel next_url) s)).
Proof.
  intros IH. unfold bind. destruct (urljoin W url href) as [next | e]; simpl.
  - destruct (IH next s) as [t' [[[a ->] | ->] Hrtc]]; exact Hrtc.
  - apply rtc_refl.
Qed.

Lemma crawl_page_fetch (fuel : nat) (url : string) (s : ProcState) :
  (forall u t, exists t', ends_in (crawl_page W fuel u t) t' /\ rtc (crawl_step W) t t') ->
  url ∉ visited_urls (self s) ->
  is_valid_url W (base_url (self s)) url = Return true ->
  exists s1 s', crawl_step W s s1 /\
                requests (env s1) = (requests (env s) ++ [url])%list /\
                ends_in (crawl_page W (S fuel) url s) s' /\
                rtc (crawl_step W) s1 s'.
Proof.
  intros IH Hnin Hvalid. enter_try Hnin Hvalid.
  assert (Hcases : (exists r, fetched_ok W (requests (env s)) url r) \/
                   (forall r, ~ fetched_ok W (requests (env s)) url r)).
  { unfold fetched_ok. destruct (requests_get W (requests (env s)) url) as [r | e].
    - destruct (raise_for_status W r) as [[] | e] eqn:Hst.
      + left. now exists r.
      + right. intros r' [Hr' Hst']. injection Hr' as <-. congruence.
    - right. intros r' [Hr' _]. discriminate. }
  destruct Hcases as [[r [Hget Hstatus]] | Hfail].
  - exists (add_visited url (record_request url s)).
    match goal with |- exists s', _ /\ _ /\ ends_in ?run s' /\ _ =>
      cut (exists s', ends_in run s' /\
                      rtc (crawl_step W) (add_visited url (record_request url s)) s')
    end.
    { intros [s' [Hend Hrtc]]. exists s'.
      split; [exact (step_fetched W s url r Hnin Hvalid (conj Hget Hstatus)) |].
      split; [reflexivity | split; assumption]. }
    apply try_log_steps.
    unfold bind at 1. unfold http_get. rewrite Hget. fold (record_request url s).
    unfold bind at 1. rewrite Hstatus. cbn [lift ret].
    unfold bind at 1. unfold modify at 1. unfold bind at 1.
    destruct (BeautifulSoup W (text r)) as [soup | e] eqn:Hparse; simpl;
      [| apply rtc_refl].
    destruct (extract_content soup url) as [[c |] soup'] eqn:Hextract.
    + unfold bind at 1. unfold modify at 1.
      eapply rtc_l.
      * eapply step_chunk with (earlier := requests (env s)) (url := url); eauto.
        -- simpl. set_solver.
        -- split; eassumption.
      * apply for_each_steps. intros href t. now apply link_steps.
    + unfold bind at 1. unfold ret at 1.
      apply for_each_steps. intros href t. now apply link_steps.
  - exists (record_request url s).
    match goal with |- exists s', _ /\ _ /\ ends_in ?run s' /\ _ =>
      cut (exists s', ends_in run s' /\ rtc (crawl_step W) (record_request url s) s')
    end.
    { intros [s' [Hend Hrtc]]. exists s'.
      split; [now apply step_fetch_failed |].
      split; [reflexivity | split; assumption]. }
    apply try_log_steps.
    unfold bind at 1. unfold http_get. fold (record_request url s).
    destruct (requests_get W (requests (env s)) url) as [r | e] eqn:Hget;
      [| apply rtc_refl].
    unfold bind at 1.
    destruct (raise_for_status W r) as [[] | e] eqn:Hstatus; simpl; [| apply rtc_refl].
    exfalso. apply (Hfail r). split; assumption.
Qed.

(** From any state and for any fuel, [crawl_page] does not raise, and
    the state it ends in, or is cut short in, is reached by crawl
    steps. *)
Theorem crawl_page_steps (fuel : nat) (url : string) (s : ProcState) :
  exists s', ends_in (crawl_page W fuel url s) s' /\ rtc (crawl_step W) s s'.
Proof.
  revert url s. induction fuel as [|fuel IH]; intros url s.
  - exists s. split; [right; reflexivity | apply rtc_refl].
  - destruct (decide (url ∈ visited_urls (self s))) as [Hin | Hnin].
    { exists s. rewrite crawl_page_skip by auto.
      split; [left; now exists tt | apply rtc_refl]. }
    destruct (is_valid_url_returns W (base_url (self s)) url) as [[] Hvalid].
    + destruct (crawl_page_fetch fuel url s IH Hnin Hvalid)
        as (s1 & s' & Hstep & _ & Hend & Hrtc).
      exists s'. split; [exact Hend |].
      eapply rtc_l; [exact Hstep | exact Hrtc].
    + exists s. rewrite crawl_page_skip by auto.
      split; [left; now exists tt | apply rtc_refl].
Qed.

Corollary crawl_page_reaches (fuel : nat) (url : string) (s : ProcState) :
  rtc (crawl_step W) s (res_state (crawl_page W fuel url s)).
Proof.
  destruct (crawl_page_steps fuel url s) as [s' [[[a ->] | ->] H]]; exact H.
Qed.

End Crawl.

(* ===================================================================== *)
(** ** Invariants of the crawl *)
(* ===================================================================== *)

(** Case analysis on a crawl step, with the same names in every proof. *)
Ltac crawl_step_cases H :=
  destruct H as [s url Hnin Hvalid Hfail
                | s url r Hnin Hvalid Hok
                | s earlier url r soup c soup' Hreq Hin Hok Hparse Hext
                | s entry];
  simpl.

Section Invariants.

Context (W : World).

(** A property kept by every crawl step holds along every run. *)
Lemma crawl_invariant (P : ProcState -> Prop) :
  (forall s s', crawl_step W s s' -> P s -> P s') ->
  forall fuel url s, P s -> P (res_state (crawl_page W fuel url s)).
Proof.
  intros Hstep fuel url s Hs.
  pose proof (crawl_page_reaches W fuel url s) as Hrtc.
  induction Hrtc as [|s1 s2 s3 H12 _ IH]; [exact Hs |].
  apply IH. exact (Hstep _ _ H12 Hs).
Qed.

(** [visited_urls] only grows, [base_url] stays, and a URL enters
    [visited_urls] only after [is_valid_url] accepted it. *)
Lemma step_visited (base : string) (V0 : gset string) (s s' : ProcState) :
  crawl_step W s s' ->
  base_url (self s) = base /\ V0 ⊆ visited_urls (self s) /\
    (forall u, u ∈ visited_urls (self s) -> admissible W base u) ->
  base_url (self s') = base /\ V0 ⊆ visited_urls (self s') /\
    (forall u, u ∈ visited_urls (self s') -> admissible W base u).
Proof.
  intros Hstep (Hbase & Hsub & Hadm).
  crawl_step_cases Hstep; try (split; [|split]; assumption).
  split; [exact Hbase | split; [set_solver |]].
  intros u Hu. apply elem_of_union in Hu as [Hu | Hu]; [| now apply Hadm].
  apply elem_of_singleton in Hu as ->.
  apply is_valid_url_true_iff. now rewrite <- Hbase.
Qed.

Lemma crawl_page_monotone (fuel : nat) (seed : string) (s0 : ProcState) :
  base_url (self (res_state (crawl_page W fuel seed s0))) = base_url (self s0) /\
  visited_urls (self s0) ⊆ visited_urls (self (res_state (crawl_page W fuel seed s0))).
Proof.
  pose proof (crawl_invariant
    (fun t => base_url (self t) = base_url (self s0) /\
              visited_urls (self s0) ⊆ visited_urls (self t))) as H.
  apply H; [| split; reflexivity].
  intros t t' Hstep [Hbase Hsub].
  crawl_step_cases Hstep; (split; [exact Hbase |]); try exact Hsub.
  etransitivity; [exact Hsub | apply union_subseteq_r].
Qed.

(** The requests already sent stay in the record, in order. *)
Lemma step_requests (s s' : ProcState) :
  crawl_step W s s' -> exists more, requests (env s') = (requests (env s) ++ more)%list.
Proof.
  intros [s0 url _ _ _ | s0 url r _ _ _ | |]; simpl;
    [now exists [url] | now exists [url] | |]; exists []; now rewrite app_nil_r.
Qed.

Lemma steps_requests (s s' : ProcState) :
  rtc (crawl_step W) s s' ->
  exists more, requests (env s') = (requests (env s) ++ more)%list.
Proof.
  induction 1 as [s | s1 s2 s3 H12 _ [more2 IH]].
  - exists []. now rewrite app_nil_r.
  - destruct (step_requests _ _ H12) as [more1 H1].
    exists (more1 ++ more2)%list. now rewrite IH, H1, app_assoc.
Qed.

(** A URL in [visited_urls] is not requested again. *)
Lemma step_no_refetch (u : string) (n : nat) (s s' : ProcState) :
  crawl_step W s s' ->
  u ∈ visited_urls (self s) /\ count_occ string_dec (requests (env s)) u = n ->
  u ∈ visited_urls (self s') /\ count_occ string_dec (requests (env s')) u = n.
Proof.
  intros Hstep [Hu Hn].
  crawl_step_cases Hstep; try (split; assumption).
  - split; [exact Hu |]. rewrite count_occ_app. simpl.
    destruct (string_dec url u) as [-> | _]; [contradiction | lia].
  - split; [set_solver |]. rewrite count_occ_app. simpl.
    destruct (string_dec url u) as [-> | _]; [contradiction | lia].
Qed.

Lemma snoc_split {A} (l e lt : list A) (x u : A) :
  (l ++ [x] = e ++ u :: lt)%list ->
  (lt = [] /\ e = l /\ u = x) \/
  (exists lt0, lt = (lt0 ++ [x])%list /\ l = (e ++ u :: lt0)%list).
Proof.
  destruct lt as [| y lt0 _] using rev_ind; intros H.
  - left. apply app_inj_tail in H as [-> ->]. auto.
  - right. exists lt0.
    change (e ++ u :: lt0 ++ [y])%list with (e ++ (u :: lt0) ++ [y])%list in H.
    rewrite app_assoc in H. apply app_inj_tail in H as [-> ->]. auto.
Qed.

(** A request that came back and passed [raise_for_status] put its URL
    into [visited_urls], and no later request went to that URL. *)
Lemma step_fetched_last (s s' : ProcState) :
  crawl_step W s s' ->
  (forall (earlier later : list string) u r,
     requests (env s) = (earlier ++ u :: later)%list ->
     fetched_ok W earlier u r ->
     u ∈ visited_urls (self s) /\ ~ In u later) ->
  forall (earlier later : list string) u r,
    requests (env s') = (earlier ++ u :: later)%list ->
    fetched_ok W earlier u r ->
    u ∈ visited_urls (self s') /\ ~ In u later.
Proof.
  intros Hstep Hinv.
  crawl_step_cases Hstep; try exact Hinv.
  - intros earlier later u r Hreq Hok.
    apply snoc_split in Hreq as [(Hlater & Hearlier & Hu) | (lt0 & Hlater & Hreq)];
      subst later.
    + subst earlier u. exfalso. exact (Hfail r Hok).
    + destruct (Hinv _ _ _ _ Hreq Hok) as [Hu Hlast]. split; [exact Hu |].
      intros Hin. apply in_app_or in Hin as [Hin | [Heq | []]]; [contradiction |].
      subst u. contradiction.
  - intros earlier later u r0 Hreq Hok0.
    apply snoc_split in Hreq as [(Hlater & Hearlier & Hu) | (lt0 & Hlater & Hreq)];
      subst later.
    + subst u. split; [apply elem_of_union; left; now apply elem_of_singleton | intros []].
    + destruct (Hinv _ _ _ _ Hreq Hok0) as [Hu Hlast].
      split; [apply elem_of_union; now right |].
      intros Hin. apply in_app_or in Hin as [Hin | [Heq | []]]; [contradiction |].
      subst u. contradiction.
Qed.

Lemma select_one_In (names classes : list string) (soup : Soup) (m : PageElement) :
  Bs4.select_one names classes soup = Some m ->
  In m (Bs4.descendants soup) /\ Bs4.matches names classes m = true.
Proof.
  unfold Bs4.select_one, Bs4.select. intros Hs.
  destruct (List.filter _ _) as [| x l] eqn:Hf; [discriminate |].
  injection Hs as ->.
  apply (filter_In (Bs4.matches names classes)). rewrite Hf. now left.
Qed.

(** What [extract_content] returns when it returns a record: the region
    is the first element of the stripped tree that the selector group of
    line 58 matches, or the first [body] when it matches none. *)
Lemma extract_content_Some (soup soup' : Soup) (url : string) (c : DocumentChunk.t) :
  extract_content soup url = (Some c, soup') ->
  soup' = Bs4.decompose_all ["nav"; "header"; "footer"; "script"; "style"] soup /\
  DocumentChunk.url c = url /\
  DocumentChunk.title c = match Bs4.title soup' with
                          | Some t => Bs4.string_ t
                          | None => Some url
                          end /\
  exists region,
    In region (Bs4.descendants soup') /\
    DocumentChunk.content c = PyStr.join " " (Bs4.stripped_strings region) /\
    (Bs4.select_one ["main"; "article"] ["content"; "documentation"] soup' = Some region \/
     Bs4.select_one ["main"; "article"] ["content"; "documentation"] soup' = None /\
     Bs4.select_one ["body"] [] soup' = Some region).
Proof.
  unfold extract_content.
  set (stripped := Bs4.decompose_all _ soup).
  destruct (Bs4.select_one ["main"; "article"] _ stripped) as [m |] eqn:Hone.
  - intros H. injection H as <- <-. simpl.
    repeat split; try reflexivity.
    exists m. split; [eapply select_one_In, Hone |]. split; [reflexivity | now left].
  - destruct (Bs4.select_one ["body"] [] stripped) as [m |] eqn:Hbody; [| discriminate].
    intros H. injection H as <- <-. simpl.
    repeat split; try reflexivity.
    exists m. split; [eapply select_one_In, Hbody |]. split; [reflexivity | now right].
Qed.

(** Every stored record is backed by a page that was fetched. *)
Lemma step_chunks (s s' : ProcState) :
  crawl_step W s s' ->
  (forall c, In c (chunks (self s)) -> chunk_backed W (requests (env s)) c) ->
  forall c, In c (chunks (self s')) -> chunk_backed W (requests (env s')) c.
Proof.
  intros Hstep Hinv.
  crawl_step_cases Hstep; try exact Hinv.
  - intros c Hc. destruct (Hinv c Hc) as (e & l & r & soup & soup' & Hr & Hrest).
    exists e, (l ++ [url])%list, r, soup, soup'. split; [| exact Hrest].
    rewrite Hr, <- app_assoc. reflexivity.
  - intros c Hc. destruct (Hinv c Hc) as (e & l & r0 & soup & soup' & Hr & Hrest).
    exists e, (l ++ [url])%list, r0, soup, soup'. split; [| exact Hrest].
    rewrite Hr, <- app_assoc. reflexivity.
  - intros c' Hc. apply in_app_or in Hc as [Hc | [<- | []]]; [now apply Hinv |].
    destruct (extract_content_Some _ _ _ _ Hext) as (_ & Hurl & _).
    exists earlier, [], r, soup, soup'. rewrite Hurl. auto.
Qed.

End Invariants.

(* ===================================================================== *)
(** ** The filter decides what is fetched (C1, C9, C10) *)
(* ===================================================================== *)

Section FilterAndCrawl.

Context (W : World).

Lemma is_valid_url_false_iff (base url : string) :
  is_valid_url W base url = Return false <-> ~ admissible W base url.
Proof.
  rewrite <- is_valid_url_true_iff.
  destruct (is_valid_url_returns W base url) as [[] ->]; split; congruence.
Qed.

(** A URL the filter accepts and that is not yet in [visited_urls] is
    requested: the request is the next entry of the record. *)
Lemma crawl_page_requests (fuel : nat) (url : string) (s : ProcState) :
  url ∉ visited_urls (self s) ->
  is_valid_url W (base_url (self s)) url = Return true ->
  exists more,
    requests (env (res_state (crawl_page W (S fuel) url s)))
    = (requests (env s) ++ url :: more)%list.
Proof.
  intros Hnin Hvalid.
  destruct (crawl_page_fetch W fuel url s (crawl_page_steps W fuel) Hnin Hvalid)
    as (s1 & s' & _ & Hreq & Hend & Hrtc).
  assert (res_state (crawl_page W (S fuel) url s) = s') as ->
    by (destruct Hend as [[a ->] | ->]; reflexivity).
  destruct (steps_requests W _ _ Hrtc) as [more ->]. rewrite Hreq.
  exists more. now rewrite <- app_assoc.
Qed.

(** Only URLs the filter accepts are ever requested. *)
Lemma step_requests_admissible (base : string) (s s' : ProcState) :
  crawl_step W s s' ->
  base_url (self s) = base /\
    (forall u, In u (requests (env s)) -> admissible W base u) ->
  base_url (self s') = base /\
    (forall u, In u (requests (env s')) -> admissible W base u).
Proof.
  intros Hstep [Hbase Hadm].
  crawl_step_cases Hstep; try (split; assumption).
  all: split; [exact Hbase |]; intros u Hu;
    apply in_app_or in Hu as [Hu | [<- | []]]; [now apply Hadm |];
    apply is_valid_url_true_iff; now rewrite <- Hbase.
Qed.

Lemma requests_admissible (fuel : nat) (seed u : string) (s : ProcState) :
  requests (env s) = [] ->
  In u (requests (env (res_state (crawl_page W fuel seed s)))) ->
  admissible W (base_url (self s)) u.
Proof.
  intros Hnil.
  apply (crawl_invariant W
           (fun t => base_url (self t) = base_url (self s) /\
                     forall u, In u (requests (env t)) -> admissible W (base_url (self s)) u)).
  - intros t t'. apply step_requests_admissible.
  - split; [reflexivity | rewrite Hnil; intros v []].
Qed.

End FilterAndCrawl.

(** C1, as the code has it.  [is_valid_url] accepts a URL exactly when
    [urlparse] gives it the same [netloc] as the seed and the URL string
    contains none of [.png], [.jpg], [.css], [.js] anywhere; it rejects
    every other URL.  [crawl_page] returns at once, leaving the state as
    it is, for a URL the filter rejects, sends a request for one it
    accepts unless that URL is in [visited_urls], and in a crawl that
    starts with no request sent every URL requested is one the filter
    accepts. *)
Theorem admissibility_filter (W : World) (base url : string) :
  (is_valid_url W base url = Return true <-> admissible W base url) /\
  (is_valid_url W base url = Return false <-> ~ admissible W base url) /\
  (forall fuel s, base_url (self s) = base -> ~ admissible W base url ->
     crawl_page W (S fuel) url s = Returned tt s) /\
  (forall fuel s, base_url (self s) = base -> admissible W base url ->
     url ∉ visited_urls (self s) ->
     exists more, requests (env (res_state (crawl_page W (S fuel) url s)))
                  = (requests (env s) ++ url :: more)%list) /\
  (forall fuel seed s, base_url (self s) = base -> requests (env s) = [] ->
     In url (requests (env (res_state (crawl_page W fuel seed s)))) ->
     admissible W base url).
Proof.
  split; [apply is_valid_url_true_iff |].
  split; [apply is_valid_url_false_iff |].
  split; [| split].
  - intros fuel s <- Hna. apply crawl_page_skip. right.
    now apply is_valid_url_false_iff.
  - intros fuel s <- Hadm Hnin. apply crawl_page_requests; [exact Hnin |].
    now apply is_valid_url_true_iff.
  - intros fuel seed s <-. apply requests_admissible.
Qed.

(** C1 as stated fails: http://docs.test/data.json has the seed's host and
    a path that ends in none of the four extensions, and [is_valid_url]
    rejects it, because the string contains [.js]. *)
Lemma same_host_json_rejected :
  spec_admissible Demo.world "http://docs.test/" "http://docs.test/data.json" /\
  is_valid_url Demo.world "http://docs.test/" "http://docs.test/data.json" = Return false.
Proof.
  split; [| vm_compute; reflexivity].
  eexists _, _. split; [vm_compute; reflexivity |].
  split; [vm_compute; reflexivity |]. split; [reflexivity |].
  intros ext [<- | [<- | [<- | [<- | []]]]]; vm_compute; reflexivity.
Qed.

(** C9.  From a state whose visited URLs all pass the filter for the
    processor's seed (the same [netloc] as the seed, none of the four
    substrings in the URL string), [crawl_page] leads, for any fuel and
    however it ends, to a state whose visited URLs all pass it, and the
    visited set of the start is contained in the one of the end. *)
Theorem visited_urls_admissible (W : World) (fuel : nat) (url : string) (s : ProcState) :
  (forall u, u ∈ visited_urls (self s) -> admissible W (base_url (self s)) u) ->
  visited_urls (self s) ⊆ visited_urls (self (res_state (crawl_page W fuel url s))) /\
  (forall u, u ∈ visited_urls (self (res_state (crawl_page W fuel url s))) ->
     same_netloc W (base_url (self s)) u /\
     forall ext, In ext [".png"; ".jpg"; ".css"; ".js"] -> ~ substring ext u).
Proof.
  intros Hadm.
  pose proof (crawl_invariant W
    (fun t => base_url (self t) = base_url (self s) /\
              visited_urls (self s) ⊆ visited_urls (self t) /\
              forall u, u ∈ visited_urls (self t) -> admissible W (base_url (self s)) u)
    (fun t t' => step_visited W _ _ t t') fuel url s) as H.
  destruct H as (_ & Hsub & Hall); [split; [reflexivity | split; [set_solver | exact Hadm]] |].
  split; [exact Hsub | exact Hall].
Qed.

Lemma visited_urls_admissible_witness :
  let s := crawl_start "http://docs.test/" in
  let s' := res_state (crawl_page Demo.world 3 "http://docs.test/" s) in
  visited_urls (self s) ⊆ visited_urls (self s') /\
  (forall u, u ∈ visited_urls (self s') ->
     same_netloc Demo.world "http://docs.test/" u /\
     forall ext, In ext [".png"; ".jpg"; ".css"; ".js"] -> ~ substring ext u).
Proof.
  apply (visited_urls_admissible Demo.world 3 "http://docs.test/"
           (crawl_start "http://docs.test/")).
  simpl. intros u Hu. exfalso. exact (not_elem_of_empty u Hu).
Defined.

(** [is_valid_url] returns a boolean for every pair of strings and
    returns [False] when [urlparse] raises on the URL; [crawl_page] then
    returns normally with the state untouched.  The URL of such a call is
    the seed: a link of a page comes through [urljoin] first. *)
Lemma is_valid_url_total (W : World) (base url : string) :
  (exists b, is_valid_url W base url = Return b) /\
  (forall e, urlparse W url = Raise e -> is_valid_url W base url = Return false) /\
  (forall e fuel s, urlparse W url = Raise e ->
     crawl_page W (S fuel) url s = Returned tt s).
Proof.
  split; [apply is_valid_url_returns |].
  split; [intros e He; eapply is_valid_url_parse_error; eauto |].
  intros e fuel s He. apply crawl_page_skip. right.
  eapply is_valid_url_parse_error; eauto.
Qed.

(** C10 fails on a page with a malformed link.  The front page of
    http://bracket.test/ has three links; on the second, [http://[::1],
    [urljoin] raises before [is_valid_url] is called.  The error is caught
    by the [try] of [crawl_page] for the front page and logged as an error
    of that page, and the loop over its links is over: the third link,
    which the filter accepts, is never requested. *)
Theorem malformed_link_ends_page_links :
  let run := crawl_page bracket_world 3 "http://bracket.test/"
               (crawl_start "http://bracket.test/") in
  BeautifulSoup bracket_world bracket_html = Return bracket_tree /\
  Bs4.find_all_a_href (snd (extract_content bracket_tree "http://bracket.test/"))
    = ["/first"; "http://[::1"; "/never"] /\
  urljoin bracket_world "http://bracket.test/" "http://[::1"
    = Raise (Exception "Invalid IPv6 URL") /\
  urljoin bracket_world "http://bracket.test/" "/never"
    = Return "http://bracket.test/never" /\
  is_valid_url bracket_world "http://bracket.test/" "http://bracket.test/never"
    = Return true /\
  (exists s', run = Returned tt s') /\
  requests (env (res_state run))
    = ["http://bracket.test/"; "http://bracket.test/first"] /\
  log (env (res_state run))
    = [(ERROR, "Error crawling http://bracket.test/: Invalid IPv6 URL")].
Proof.
  cbv zeta. repeat split; try (vm_compute; reflexivity).
  eexists. vm_compute. reflexivity.
Qed.

(** On the reference world: a seed with an unmatched bracket makes
    [urlparse] raise, and the filter answers [False]. *)
Example is_valid_url_bad_bracket :
  urlparse Demo.world "http://[::1" = Raise (Exception "Invalid IPv6 URL") /\
  is_valid_url Demo.world "http://docs.test/" "http://[::1" = Return false.
Proof. split; vm_compute; reflexivity. Qed.

(* ===================================================================== *)
(** ** Requests and records (C2, C3) *)
(* ===================================================================== *)

(** X3.  Once a URL is in [visited_urls], no further request goes to it:
    a call of [crawl_page], for whatever URL, leaves the number of
    requests for it as it was. *)
Lemma visited_not_refetched (W : World) (fuel : nat) (url u : string) (s : ProcState) :
  u ∈ visited_urls (self s) ->
  count_occ string_dec (requests (env (res_state (crawl_page W fuel url s)))) u
  = count_occ string_dec (requests (env s)) u.
Proof.
  intros Hu.
  apply (crawl_invariant W
           (fun t => u ∈ visited_urls (self t) /\
                     count_occ string_dec (requests (env t)) u
                     = count_occ string_dec (requests (env s)) u)
           (fun t t' => step_no_refetch W u _ t t') fuel url s).
  split; [exact Hu | reflexivity].
Qed.

(** C2, as the code has it.  In a crawl that starts with no request
    sent, a request that came back and passed [raise_for_status] is the
    last request for its URL, and the URL is in [visited_urls]; so no URL
    is fetched again after it was fetched with success.  Nothing is said
    about a URL whose request failed. *)
Theorem successful_fetch_is_last (W : World) (fuel : nat) (seed : string)
    (s : ProcState) (earlier later : list string) (u : string) (r : Response) :
  requests (env s) = [] ->
  requests (env (res_state (crawl_page W fuel seed s))) = (earlier ++ u :: later)%list ->
  requests_get W earlier u = Return r ->
  raise_for_status W r = Return tt ->
  u ∈ visited_urls (self (res_state (crawl_page W fuel seed s))) /\ ~ In u later.
Proof.
  intros Hnil Hreq Hget Hstatus.
  apply (crawl_invariant W
           (fun t => forall (earlier later : list string) u r,
                       requests (env t) = (earlier ++ u :: later)%list ->
                       fetched_ok W earlier u r ->
                       u ∈ visited_urls (self t) /\ ~ In u later)
           (step_fetched_last W) fuel seed s)
    with (earlier := earlier) (r := r); [| exact Hreq | split; assumption].
  rewrite Hnil. intros e l v r0 Habs. destruct e; discriminate.
Qed.

Lemma successful_fetch_is_last_witness :
  "http://docs.test/docs/q"
    ∈ visited_urls (self (res_state (crawl_page Demo.world 3 "http://docs.test/"
                                        (crawl_start "http://docs.test/")))) /\
  ~ In "http://docs.test/docs/q" ["http://docs.test/gone"; "http://docs.test/gone"].
Proof.
  apply (successful_fetch_is_last Demo.world 3 "http://docs.test/"
           (crawl_start "http://docs.test/")
           ["http://docs.test/"] ["http://docs.test/gone"; "http://docs.test/gone"]
           "http://docs.test/docs/q" {| status_code := 200; text := Demo.q_html |}).
  - reflexivity.
  - vm_compute. reflexivity.
  - vm_compute. reflexivity.
  - vm_compute. reflexivity.
Defined.

(** C2 as stated fails on the reference world.  The seed page links twice
    to http://docs.test/gone, which answers 404; [raise_for_status] raises
    before [visited_urls.add] is reached, so the second link finds the URL
    unvisited and a second request goes out. *)
Lemma gone_page_requested_twice :
  let run := crawl_page Demo.world 3 "http://docs.test/"
               (crawl_start "http://docs.test/") in
  (exists s', run = Returned tt s') /\
  requests (env (res_state run)) =
    ["http://docs.test/"; "http://docs.test/docs/q";
     "http://docs.test/gone"; "http://docs.test/gone"] /\
  count_occ string_dec (requests (env (res_state run))) "http://docs.test/gone" = 2%nat /\
  "http://docs.test/gone" ∉ visited_urls (self (res_state run)).
Proof.
  split; [eexists; vm_compute; reflexivity |].
  split; [vm_compute; reflexivity |]. split; [vm_compute; reflexivity |].
  apply (bool_decide_unpack _). vm_compute. exact I.
Qed.

(** C3, as the code has it.  If every record of the start state is backed
    by a fetched page, so is every record of the state [crawl_page] ends
    in: a request for the record's URL is on the list of requests and
    came back with a response whose status is not in 400..599, the
    response parsed, and the record's body is the space-joined stripped
    text of the content region of the parsed page after the chrome was
    removed: the first element in document order that is a main or an
    article or has the class content or documentation, or, when there is
    none, the first body.  Nothing is said about the body being
    non-empty. *)
Theorem chunks_backed_by_fetched_pages (W : World) (fuel : nat) (url : string)
    (s : ProcState) :
  (forall c, In c (chunks (self s)) -> chunk_backed W (requests (env s)) c) ->
  forall c, In c (chunks (self (res_state (crawl_page W fuel url s)))) ->
    exists (earlier later : list string) r soup region,
      requests (env (res_state (crawl_page W fuel url s)))
        = (earlier ++ DocumentChunk.url c :: later)%list /\
      requests_get W earlier (DocumentChunk.url c) = Return r /\
      (status_code r < 400 \/ 600 <= status_code r) /\
      BeautifulSoup W (text r) = Return soup /\
      (let stripped :=
         Bs4.decompose_all ["nav"; "header"; "footer"; "script"; "style"] soup in
       Bs4.select_one ["main"; "article"] ["content"; "documentation"] stripped
         = Some region \/
       Bs4.select_one ["main"; "article"] ["content"; "documentation"] stripped = None /\
       Bs4.select_one ["body"] [] stripped = Some region) /\
      DocumentChunk.content c = PyStr.join " " (Bs4.stripped_strings region).
Proof.
  intros Hinv c Hc.
  pose proof (crawl_invariant W
    (fun t => forall c, In c (chunks (self t)) -> chunk_backed W (requests (env t)) c)
    (step_chunks W) fuel url s Hinv c Hc) as (earlier & later & r & soup & soup' & Hreq & [Hget Hst] & Hparse & Hext).
  destruct (extract_content_Some _ _ _ _ Hext)
    as (-> & _ & _ & region & _ & Hcontent & Hregion).
  exists earlier, later, r, soup, region.
  repeat (split; [assumption |]). split; [| auto].
  unfold raise_for_status in Hst.
  destruct (400 <=? status_code r) eqn:H1; [| left; lia].
  destruct (status_code r <? 600) eqn:H2; [discriminate | right; lia].
Qed.

Lemma chunks_backed_by_fetched_pages_witness :
  let s' := res_state (crawl_page Demo.world 3 "http://docs.test/"
                         (crawl_start "http://docs.test/")) in
  exists (earlier later : list string) r soup region,
    requests (env s') = (earlier ++ "http://docs.test/" :: later)%list /\
    requests_get Demo.world earlier "http://docs.test/" = Return r /\
    (status_code r < 400 \/ 600 <= status_code r) /\
    BeautifulSoup Demo.world (text r) = Return soup /\
    (let stripped :=
       Bs4.decompose_all ["nav"; "header"; "footer"; "script"; "style"] soup in
     Bs4.select_one ["main"; "article"] ["content"; "documentation"] stripped
       = Some region \/
     Bs4.select_one ["main"; "article"] ["content"; "documentation"] stripped = None /\
     Bs4.select_one ["body"] [] stripped = Some region) /\
    "A B" = PyStr.join " " (Bs4.stripped_strings region).
Proof.
  apply (chunks_backed_by_fetched_pages Demo.world 3 "http://docs.test/"
           (crawl_start "http://docs.test/"))
    with (c := {| DocumentChunk.content := "A B";
                  DocumentChunk.url := "http://docs.test/";
                  DocumentChunk.title := Some "Docs" |}).
  - simpl. intros c [].
  - vm_compute. left. reflexivity.
Defined.

(** C3 as stated fails: http://empty.test/ serves a page whose body has
    nothing in it, and the crawl stores a record for it with an empty
    body; http://choice.test/ answers with status 300, which
    [raise_for_status] lets pass, and the crawl stores a record for it. *)
Lemma record_stored_for_empty_body_and_status_300 :
  let run1 := crawl_page Demo.world 1 "http://empty.test/"
                (crawl_start "http://empty.test/") in
  let run2 := crawl_page Demo.world 1 "http://choice.test/"
                (crawl_start "http://choice.test/") in
  (exists s', run1 = Returned tt s') /\
  chunks (self (res_state run1))
  = [{| DocumentChunk.content := "";
        DocumentChunk.url := "http://empty.test/";
        DocumentChunk.title := Some "http://empty.test/" |}] /\
  requests_get Demo.world [] "http://choice.test/"
  = Return {| status_code := 300; text := Demo.q_html |} /\
  (exists s', run2 = Returned tt s') /\
  chunks (self (res_state run2))
  = [{| DocumentChunk.content := "Answer";
        DocumentChunk.url := "http://choice.test/";
        DocumentChunk.title := None |}].
Proof.
  split; [eexists; vm_compute; reflexivity |].
  split; [vm_compute; reflexivity |]. split; [reflexivity |].
  split; [eexists; vm_compute; reflexivity | vm_compute; reflexivity].
Qed.

(* ===================================================================== *)
(** ** Extraction (C5, C6) *)
(* ===================================================================== *)

(** Induction over the tree, with the property at hand for every child
    of an element. *)
Lemma PageElement_tree_ind (P : PageElement -> Prop) :
  (forall s, P (NavigableString s)) ->
  (forall s, P (Comment s)) ->
  (forall n cs h kids, Forall P kids -> P (Tag n cs h kids)) ->
  forall e, P e.
Proof.
  intros Hstr Hcom Htag. fix IH 1. intros [s | s | n cs h kids].
  - apply Hstr.
  - apply Hcom.
  - apply Htag. induction kids as [| k kids IHkids]; constructor; [apply IH | exact IHkids].
Qed.

Lemma self_and_descendants_eq (e : PageElement) :
  Bs4.self_and_descendants e = e :: Bs4.tag_descendants e.
Proof. destruct e; reflexivity. Qed.

Lemma decompose_in_name (names : list string) (e : PageElement) :
  Bs4.has_name names (Bs4.decompose_in names e) = Bs4.has_name names e.
Proof. destruct e; reflexivity. Qed.

(** What is left of a list of siblings holds no element with one of the
    names, at any depth, provided that holds below each sibling. *)
Lemma siblings_without (names : list string) (kids : list PageElement) :
  Forall (fun k => forall d, In d (Bs4.tag_descendants (Bs4.decompose_in names k)) ->
                             Bs4.has_name names d = false) kids ->
  forall d, In d (Bs4.descendants (Bs4.decompose_all names kids)) ->
            Bs4.has_name names d = false.
Proof.
  unfold Bs4.descendants, Bs4.decompose_all.
  induction 1 as [| k kids Hk _ IH]; intros d Hd; simpl in Hd; [contradiction |].
  rewrite flat_map_app in Hd. apply in_app_or in Hd as [Hd | Hd]; [| now apply IH].
  destruct (Bs4.has_name names k) eqn:Hname; simpl in Hd; [contradiction |].
  rewrite app_nil_r, self_and_descendants_eq in Hd.
  destruct Hd as [<- | Hd]; [now rewrite decompose_in_name | now apply Hk].
Qed.

Lemma decompose_in_without (names : list string) (e d : PageElement) :
  In d (Bs4.tag_descendants (Bs4.decompose_in names e)) ->
  Bs4.has_name names d = false.
Proof.
  revert d. induction e as [s | s | n cs h kids IH] using PageElement_tree_ind;
    intros d Hd; try contradiction.
  exact (siblings_without names kids IH d Hd).
Qed.

(** After [decompose_all] no element with one of the names is left. *)
Lemma decompose_all_without (names : list string) (soup : Soup) (d : PageElement) :
  In d (Bs4.descendants (Bs4.decompose_all names soup)) ->
  Bs4.has_name names d = false.
Proof.
  apply siblings_without. apply List.Forall_forall. intros k _ d'.
  apply decompose_in_without.
Qed.

(** What is below a node of the tree is in the tree. *)
Lemma descendants_trans_in (e r d : PageElement) :
  In r (Bs4.self_and_descendants e) ->
  In d (Bs4.tag_descendants r) ->
  In d (Bs4.tag_descendants e).
Proof.
  revert r d. induction e as [s | s | n cs h kids IH] using PageElement_tree_ind;
    intros r d Hr Hd; rewrite self_and_descendants_eq in Hr;
    destruct Hr as [<- | Hr]; try assumption; try contradiction.
  simpl in *. unfold Bs4.descendants in *.
  apply in_flat_map in Hr as [k [Hk Hr]]. apply in_flat_map. exists k.
  split; [exact Hk |]. rewrite self_and_descendants_eq. right.
  rewrite List.Forall_forall in IH. exact (IH k Hk r d Hr Hd).
Qed.

Lemma descendants_trans (soup : Soup) (r d : PageElement) :
  In r (Bs4.descendants soup) ->
  In d (Bs4.tag_descendants r) ->
  In d (Bs4.descendants soup).
Proof.
  unfold Bs4.descendants. intros Hr Hd.
  apply in_flat_map in Hr as [k [Hk Hr]]. apply in_flat_map. exists k.
  split; [exact Hk |]. rewrite self_and_descendants_eq. right.
  exact (descendants_trans_in k r d Hr Hd).
Qed.

(** The region a record's body is read from holds no nav, header, footer,
    script or style element, so no text of such an element reaches the
    body. *)
Lemma extracted_region_has_no_chrome (soup soup' : Soup) (url : string)
    (c : DocumentChunk.t) :
  extract_content soup url = (Some c, soup') ->
  exists region,
    In region (Bs4.descendants soup') /\
    DocumentChunk.content c = PyStr.join " " (Bs4.stripped_strings region) /\
    forall d, In d (Bs4.tag_descendants region) ->
              Bs4.has_name ["nav"; "header"; "footer"; "script"; "style"] d = false.
Proof.
  intros H.
  destruct (extract_content_Some _ _ _ _ H) as (-> & _ & _ & region & Hin & Hc & _).
  exists region. split; [exact Hin | split; [exact Hc |]].
  intros d Hd. eapply decompose_all_without, descendants_trans; eassumption.
Qed.

(** Removing the chrome and then walking the tree is walking the tree
    outside the chrome. *)
Lemma siblings_outside (names : list string) (kids : list PageElement) :
  Forall (fun k => Bs4.self_and_descendants (Bs4.decompose_in names k)
                   = List.map (Bs4.decompose_in names) (outside names k)) kids ->
  Bs4.descendants (Bs4.decompose_all names kids)
  = List.map (Bs4.decompose_in names) (outside_all names kids).
Proof.
  unfold Bs4.descendants, Bs4.decompose_all, outside_all.
  induction 1 as [| k kids Hk _ IH]; [reflexivity |].
  cbn [flat_map]. rewrite flat_map_app, List.map_app, IH. f_equal.
  destruct (Bs4.has_name names k); [reflexivity |].
  cbn [flat_map]. now rewrite app_nil_r.
Qed.

Lemma decompose_in_outside (names : list string) (e : PageElement) :
  Bs4.self_and_descendants (Bs4.decompose_in names e)
  = List.map (Bs4.decompose_in names) (outside names e).
Proof.
  induction e as [s | s | n cs h kids IH] using PageElement_tree_ind;
    [reflexivity | reflexivity |].
  change (Bs4.decompose_in names (Tag n cs h kids))
    with (Tag n cs h (Bs4.decompose_all names kids)).
  change (outside names (Tag n cs h kids))
    with (Tag n cs h kids :: outside_all names kids).
  cbn [Bs4.self_and_descendants List.map].
  change (Bs4.decompose_in names (Tag n cs h kids))
    with (Tag n cs h (Bs4.decompose_all names kids)).
  f_equal. exact (siblings_outside names kids IH).
Qed.

Lemma decompose_all_outside (names : list string) (soup : Soup) :
  Bs4.descendants (Bs4.decompose_all names soup)
  = List.map (Bs4.decompose_in names) (outside_all names soup).
Proof.
  apply siblings_outside, List.Forall_forall. intros k _. apply decompose_in_outside.
Qed.

Lemma matches_decompose_in (names sel_names sel_classes : list string) (e : PageElement) :
  Bs4.matches sel_names sel_classes (Bs4.decompose_in names e)
  = Bs4.matches sel_names sel_classes e.
Proof. destruct e; reflexivity. Qed.

(** [select_one] on the stripped tree finds what is left of the first
    matching element of the page outside the chrome. *)
Lemma select_one_outside (names sel_names sel_classes : list string) (soup : Soup) :
  Bs4.select_one sel_names sel_classes (Bs4.decompose_all names soup)
  = option_map (Bs4.decompose_in names)
      (head (List.filter (Bs4.matches sel_names sel_classes) (outside_all names soup))).
Proof.
  unfold Bs4.select_one, Bs4.select. rewrite decompose_all_outside.
  induction (outside_all names soup) as [| x l IH]; [reflexivity |].
  cbn [List.map List.filter]. rewrite matches_decompose_in.
  destruct (Bs4.matches sel_names sel_classes x); [reflexivity | exact IH].
Qed.

(** The strings of what is left of an element are the strings of the
    element outside the chrome. *)
Lemma stripped_strings_decompose_in (names : list string) (e : PageElement) :
  Bs4.stripped_strings (Bs4.decompose_in names e) = outside_strings names e.
Proof.
  unfold Bs4.stripped_strings, outside_strings.
  assert (Htl : Bs4.tag_descendants (Bs4.decompose_in names e)
                = List.map (Bs4.decompose_in names) (tl (outside names e))).
  { pose proof (decompose_in_outside names e) as H.
    rewrite self_and_descendants_eq in H.
    apply (f_equal (@tl PageElement)) in H. destruct e; exact H. }
  rewrite Htl. clear Htl.
  induction (tl (outside names e)) as [| d l IH]; [reflexivity |].
  cbn [List.map flat_map]. rewrite IH. destruct d; reflexivity.
Qed.

(** C5, as the code has it.  Take the first element of the page, in
    document order and outside every nav, header, footer, script and style
    element, that is a main or an article or has the class content or
    documentation.  The record's body is the stripped non-empty text
    nodes of that element that stand outside nav, header, footer, script
    and style elements, in document order, joined by single spaces: "A B"
    when they are A and B.  Text inside a nav, header, footer, script or
    style element is no part of it, wherever the element stands. *)
Theorem extraction_of_first_region (soup : Soup) (url : string)
    (region : PageElement) (texts : list string) :
  head (List.filter (Bs4.matches ["main"; "article"] ["content"; "documentation"])
          (outside_all ["nav"; "header"; "footer"; "script"; "style"] soup))
    = Some region ->
  outside_strings ["nav"; "header"; "footer"; "script"; "style"] region = texts ->
  exists title,
    fst (extract_content soup url)
    = Some {| DocumentChunk.content := PyStr.join " " texts;
              DocumentChunk.url := url;
              DocumentChunk.title := title |}.
Proof.
  intros Hfirst Htexts. unfold extract_content.
  rewrite select_one_outside, Hfirst. cbn [option_map fst].
  rewrite stripped_strings_decompose_in, Htexts.
  eexists. reflexivity.
Qed.

Lemma extraction_of_first_region_witness :
  exists title,
    fst (extract_content Demo.home_tree "http://docs.test/")
    = Some {| DocumentChunk.content := "A B";
              DocumentChunk.url := "http://docs.test/";
              DocumentChunk.title := title |}.
Proof.
  apply (extraction_of_first_region Demo.home_tree "http://docs.test/" main_A_B
           ["A"; "B"]).
  - vm_compute. reflexivity.
  - vm_compute. reflexivity.
Defined.

(** C5 as stated fails.  Each of the three pages has nav, header, footer,
    script and style elements and a main whose text nodes are A and B.
    On the first a div of class content stands before the main and the
    body is "X"; on the second an article stands before it and the body
    is "News"; on the third the main stands in the header, is removed
    with it, and the body is that of the body element, "Z". *)
Lemma main_is_not_always_the_region :
  Bs4.stripped_strings main_A_B = ["A"; "B"] /\
  (forall page, In page [content_first_page; article_first_page; main_in_header_page] ->
     In main_A_B (Bs4.descendants page) /\
     forall name, In name ["nav"; "header"; "footer"; "script"; "style"] ->
       existsb (Bs4.has_name [name]) (Bs4.descendants page) = true) /\
  option_map DocumentChunk.content (fst (extract_content content_first_page "http://docs.test/"))
    = Some "X" /\
  option_map DocumentChunk.content (fst (extract_content article_first_page "http://docs.test/"))
    = Some "News" /\
  option_map DocumentChunk.content (fst (extract_content main_in_header_page "http://docs.test/"))
    = Some "Z".
Proof.
  split; [vm_compute; reflexivity |]. split.
  - intros page [<- | [<- | [<- | []]]]; (split; [vm_compute; tauto |]);
      intros name [<- | [<- | [<- | [<- | [<- | []]]]]]; vm_compute; reflexivity.
  - repeat split; vm_compute; reflexivity.
Qed.

(** On the scenario page, whatever its nav, header, footer, script and
    style elements contain, the record's body is "A B": the text of the
    two text nodes of [main], joined by a space, and nothing else. *)
Example extraction_scenario (title_text : string)
    (nav_kids header_kids footer_kids script_kids style_kids : list PageElement)
    (url : string) :
  fst (extract_content
         (scenario_page title_text nav_kids header_kids footer_kids script_kids style_kids)
         url)
  = Some {| DocumentChunk.content := "A B";
            DocumentChunk.url := url;
            DocumentChunk.title := Some title_text |}.
Proof. reflexivity. Qed.

(** Text of the chrome of the reference home page does not reach the
    record. *)
Example home_page_record :
  fst (extract_content Demo.home_tree "http://docs.test/")
  = Some {| DocumentChunk.content := "A B";
            DocumentChunk.url := "http://docs.test/";
            DocumentChunk.title := Some "Docs" |}.
Proof. vm_compute. reflexivity. Qed.

(** The links [crawl_page] follows are read from the tree after
    [extract_content] removed the chrome: the link inside [nav] is not
    among them. *)
Example home_page_links :
  Bs4.find_all_a_href (snd (extract_content Demo.home_tree "http://docs.test/"))
  = ["/docs/q"; "https://cdn.docs.test/logo.png"; "/style.css"; "/data.json";
     "/gone"; "/gone"].
Proof. vm_compute. reflexivity. Qed.

(** Without a title element the record's title is the URL. *)
Lemma title_falls_back_to_url (soup soup' : Soup) (url : string) (c : DocumentChunk.t) :
  extract_content soup url = (Some c, soup') ->
  Bs4.title soup' = None ->
  DocumentChunk.title c = Some url.
Proof.
  intros H Hnone. destruct (extract_content_Some _ _ _ _ H) as (_ & _ & Ht & _).
  now rewrite Ht, Hnone.
Qed.

(** With a title element that holds one text node, the title is that
    text. *)
Lemma title_is_title_text (soup soup' : Soup) (url text : string) (c : DocumentChunk.t)
    (cs : list string) (h : option string) :
  extract_content soup url = (Some c, soup') ->
  Bs4.title soup' = Some (Tag "title" cs h [NavigableString text]) ->
  DocumentChunk.title c = Some text.
Proof.
  intros H Hsome. destruct (extract_content_Some _ _ _ _ H) as (_ & _ & Ht & _).
  now rewrite Ht, Hsome.
Qed.

(** C6 fails on the page http://docs.test/docs/q, whose title element is
    empty: [soup.title] is there, [soup.title.string] is [None], and the
    record's title is [None], neither the text of the title element (the
    empty string) nor the URL. *)
Lemma empty_title_gives_None :
  fst (extract_content Demo.q_tree "http://docs.test/docs/q")
  = Some {| DocumentChunk.content := "Answer";
            DocumentChunk.url := "http://docs.test/docs/q";
            DocumentChunk.title := None |}.
Proof. vm_compute. reflexivity. Qed.

(* ===================================================================== *)
(** ** QAAgent (C4, C7, C8) *)
(* ===================================================================== *)

Section Agent.

Context (W : World).

(** A request that fails, in transport or by its status, ends
    [crawl_page] normally with one more log record. *)
Lemma crawl_page_fetch_fails (fuel : nat) (url : string) (s : ProcState)
    (e : PyException) :
  url ∉ visited_urls (self s) ->
  is_valid_url W (base_url (self s)) url = Return true ->
  exc_bind (requests_get W (requests (env s)) url) (raise_for_status W) = Raise e ->
  crawl_page W (S fuel) url s
  = Returned tt
      (record_log (ERROR, "Error crawling " +:+ url +:+ ": " +:+ exc_str e)
         (record_request url s)).
Proof.
  intros Hnin Hvalid Hfail. enter_try Hnin Hvalid.
  unfold try_except. unfold bind at 1. unfold http_get.
  destruct (requests_get W (requests (env s)) url) as [r | e'] eqn:Hget;
    simpl in Hfail.
  - unfold bind at 1. rewrite Hfail. reflexivity.
  - injection Hfail as ->. reflexivity.
Qed.

(** [process_documentation] does not raise. *)
Lemma process_documentation_ends (fuel : nat) (s : ProcState) :
  exists s', ends_in (process_documentation W fuel s) s'.
Proof.
  unfold process_documentation, bind, get, executor_submit.
  destruct (crawl_page_steps W fuel (base_url (self s)) s) as [s' [[[[] ->] | ->] _]];
    exists s'; [left; now exists tt | now right].
Qed.

(** X22.  [initialize_with_url] does not raise, whatever the world does:
    the handler that logs and re-raises is never entered. *)
Lemma initialize_with_url_never_raises (fuel : nat) (url : string) (s : AgentState) :
  exists s', initialize_with_url W fuel url s = Returned tt s' \/
             initialize_with_url W fuel url s = OutOfFuel s'.
Proof.
  unfold initialize_with_url, try_except, bind, logger, modify, get, on_processor.
  cbn [processor set_env AgentState_env].
  match goal with |- context [process_documentation W fuel ?t] =>
    destruct (process_documentation_ends fuel t) as [s' [[[] ->] | ->]] end.
  - eexists. left. reflexivity.
  - eexists. right. reflexivity.
Qed.

Lemma answer_question_returns (question : string) (s : AgentState) :
  exists answer s', answer_question W question s = Returned answer s' /\
                    processor s' = processor s.
Proof.
  unfold answer_question. unfold bind at 1. unfold get at 1.
  destruct (processor s) as [p |] eqn:Hp; [| exists uninitialized_message, s; auto].
  unfold try_except. unfold bind at 1.
  destruct (messages_create W _) as [[| block rest] | e]; simpl; eauto.
Qed.

End Agent.

(** C4, as the code has it.  When the request for the seed fails, in
    transport or by a status from 400 to 599, [crawl_page] logs
    "Error crawling ..." and swallows the error; [initialize_with_url]
    returns normally, the processor it leaves has no visited URL and no
    record, and the log holds the start message, the crawl error and
    "Processed 0 documentation chunks". *)
Theorem seed_failure_is_swallowed (W : World) (fuel : nat) (url : string)
    (s : AgentState) (e : PyException) :
  is_valid_url W url url = Return true ->
  exc_bind (requests_get W (requests (agent_env s)) url) (raise_for_status W) = Raise e ->
  initialize_with_url W (S fuel) url s
  = Returned tt
      {| processor := Some (DocumentProcessor_init url);
         agent_env :=
           {| log := log (agent_env s) ++
                     [(INFO, "Starting documentation processing for " +:+ url);
                      (ERROR, "Error crawling " +:+ url +:+ ": " +:+ exc_str e);
                      (INFO, "Processed 0 documentation chunks")];
              requests := requests (agent_env s) ++ [url] |} |}.
Proof.
  intros Hvalid Hfail.
  unfold initialize_with_url, try_except.
  unfold bind at 1. unfold modify at 1.
  unfold bind at 1. unfold logger at 1. unfold modify at 1.
  unfold bind at 1. unfold on_processor. cbn [processor set_env AgentState_env].
  unfold process_documentation. unfold bind at 1. unfold get at 1.
  unfold executor_submit. cbn [self base_url DocumentProcessor_init].
  rewrite (crawl_page_fetch_fails W fuel url _ e);
    [| simpl; apply not_elem_of_empty | exact Hvalid | exact Hfail].
  unfold bind at 1. unfold get at 1. unfold logger, modify. simpl.
  rewrite <- !app_assoc. reflexivity.
Qed.

Lemma seed_failure_is_swallowed_witness :
  initialize_with_url Demo.world 1 "http://down.test/" QAAgent_init
  = Returned tt
      {| processor := Some (DocumentProcessor_init "http://down.test/");
         agent_env :=
           {| log := [(INFO, "Starting documentation processing for http://down.test/");
                      (ERROR, "Error crawling http://down.test/: Connection refused");
                      (INFO, "Processed 0 documentation chunks")];
              requests := ["http://down.test/"] |} |}.
Proof.
  apply (seed_failure_is_swallowed Demo.world 0 "http://down.test/" QAAgent_init
           (Exception "Connection refused")).
  - vm_compute. reflexivity.
  - vm_compute. reflexivity.
Defined.

(** C4 as stated fails: the seed http://down.test/ cannot be reached, and
    [initialize_with_url] returns; nothing is raised to its caller. *)
Lemma unreachable_seed_returns :
  requests_get Demo.world [] "http://down.test/" = Raise (Exception "Connection refused") /\
  (exists s', initialize_with_url Demo.world 3 "http://down.test/" QAAgent_init
              = Returned tt s') /\
  ~ (exists e s', initialize_with_url Demo.world 3 "http://down.test/" QAAgent_init
                  = Raised e s').
Proof.
  split; [reflexivity |]. split.
  - eexists. vm_compute. reflexivity.
  - intros (e & s' & H). vm_compute in H. discriminate.
Qed.

(** C7.  [format_context] gives the empty string when there is no
    processor and when the processor has no records, and
    [answer_question] on an agent without processor returns the fixed
    message and leaves the agent as it is. *)
Theorem empty_context_and_uninitialized (W : World) (question base : string)
    (visited : gset string) (env0 : Env) :
  format_context None = "" /\
  format_context (Some {| base_url := base; visited_urls := visited; chunks := [] |}) = "" /\
  answer_question W question {| processor := None; agent_env := env0 |}
  = Returned
      "Error: Documentation not initialized. Please provide a help website URL first."
      {| processor := None; agent_env := env0 |}.
Proof. repeat split. Qed.

(** C8.  When the answer service raises [e], [answer_question] returns
    the string "Error generating answer: " followed by [str(e)], and the
    processor, with its visited set and its records, is the one the call
    started with. *)
Theorem collaborator_failure_is_reported (W : World) (question : string)
    (s : AgentState) (p : DocumentProcessor) (e : PyException) :
  processor s = Some p ->
  messages_create W (prompt_of (format_context (Some p)) question) = Raise e ->
  exists s',
    answer_question W question s
    = Returned ("Error generating answer: " +:+ exc_str e) s' /\
    substring (exc_str e) ("Error generating answer: " +:+ exc_str e) /\
    processor s' = Some p /\
    requests (agent_env s') = requests (agent_env s).
Proof.
  intros Hp Hfail. unfold answer_question. unfold bind at 1. unfold get at 1.
  rewrite Hp. unfold try_except. unfold bind at 1. rewrite Hfail. simpl.
  eexists. split; [reflexivity |]. split; [| split; [exact Hp | reflexivity]].
  exists "Error generating answer: ", "".
  f_equal. clear. induction (exc_str e) as [|c t IH]; [reflexivity |].
  change (String c t +:+ "") with (String c (t +:+ "")). now rewrite <- IH.
Qed.

Lemma collaborator_failure_is_reported_witness :
  exists s',
    answer_question Demo.world "How do I log in?"
      {| processor := Some (DocumentProcessor_init "http://docs.test/");
         agent_env := {| log := []; requests := [] |} |}
    = Returned "Error generating answer: overloaded" s' /\
    substring "overloaded" "Error generating answer: overloaded" /\
    processor s' = Some (DocumentProcessor_init "http://docs.test/") /\
    requests (agent_env s') = [].
Proof.
  apply (collaborator_failure_is_reported Demo.world "How do I log in?"
           {| processor := Some (DocumentProcessor_init "http://docs.test/");
              agent_env := {| log := []; requests := [] |} |}
           (DocumentProcessor_init "http://docs.test/") (Exception "overloaded")).
  - reflexivity.
  - reflexivity.
Defined.

(** A response without content blocks is reported the same way. *)
Lemma empty_response_is_reported (W : World) (question : string) (s : AgentState)
    (p : DocumentProcessor) :
  processor s = Some p ->
  messages_create W (prompt_of (format_context (Some p)) question) = Return [] ->
  exists s',
    answer_question W question s
    = Returned "Error generating answer: list index out of range" s' /\
    processor s' = Some p.
Proof.
  intros Hp Hempty. unfold answer_question. unfold bind at 1. unfold get at 1.
  rewrite Hp. unfold try_except. unfold bind at 1. rewrite Hempty. simpl.
  eexists. split; [reflexivity | exact Hp].
Qed.

(* ===================================================================== *)
(** ** Enough fuel: the crawl of a finite site returns *)
(* ===================================================================== *)

Section Termination.

Context (W : World).

(** A [try] whose body returns or raises, returns. *)
Lemma try_log_returns (body : M ProcState unit) (msg : PyException -> string)
    (s : ProcState) :
  settles (body s) ->
  exists s', try_except body (fun e => logger ERROR (msg e)) s = Returned tt s'.
Proof.
  unfold try_except, settles.
  destruct (body s) as [[] t | e t | t]; intros H; [| | contradiction];
    eexists; reflexivity.
Qed.

(** A loop returns or raises when its body does so from every state that
    satisfies [P] and, when it returns, leaves a state that satisfies
    [P]. *)
Lemma for_each_settles {A} (P : ProcState -> Prop) (body : A -> M ProcState unit)
    (xs : list A) :
  (forall x t, P t -> match body x t with
                      | Returned _ t' => P t'
                      | Raised _ _ => True
                      | OutOfFuel _ => False
                      end) ->
  forall t, P t -> settles (for_each xs body t).
Proof.
  intros Hbody. induction xs as [| x xs IH]; intros t Ht; simpl; [exact I |].
  unfold bind. specialize (Hbody x t Ht).
  destruct (body x t) as [[] t' | e t' | t']; [now apply IH | exact I | contradiction].
Qed.

(** X21.  When the URLs that the filter accepts and that can be fetched
    with success all lie in a finite set [U], the number of those not yet
    visited bounds the depth of the recursion: with more fuel than that,
    [crawl_page] returns. *)
Theorem crawl_page_returns (U : gset string) (base : string) (fuel : nat)
    (url : string) (s : ProcState) :
  (forall earlier u r, is_valid_url W base u = Return true ->
                       fetched_ok W earlier u r -> u ∈ U) ->
  base_url (self s) = base ->
  (size (U ∖ visited_urls (self s)) < fuel)%nat ->
  exists s', crawl_page W fuel url s = Returned tt s'.
Proof.
  intros HU. revert url s.
  induction fuel as [| fuel IH]; intros url s Hbase Hsize; [lia |].
  destruct (decide (url ∈ visited_urls (self s))) as [Hin | Hnin].
  { exists s. apply crawl_page_skip. now left. }
  destruct (is_valid_url_returns W (base_url (self s)) url) as [[] Hvalid];
    [| exists s; apply crawl_page_skip; now right].
  enter_try Hnin Hvalid. apply try_log_returns.
  unfold bind at 1. unfold http_get. fold (record_request url s).
  destruct (requests_get W (requests (env s)) url) as [r | e] eqn:Hget; [| exact I].
  unfold bind at 1.
  destruct (raise_for_status W r) as [[] | e] eqn:Hstatus; cbn [lift ret raise];
    [| exact I].
  unfold bind at 1. unfold modify at 1. unfold bind at 1.
  destruct (BeautifulSoup W (text r)) as [soup | e]; cbn [lift ret raise]; [| exact I].
  set (s2 := add_visited url (record_request url s)).
  assert (HinU : url ∈ U).
  { apply (HU (requests (env s)) url r); [now rewrite <- Hbase | split; assumption]. }
  assert (Hless : (size (U ∖ visited_urls (self s2)) < fuel)%nat).
  { assert (Heq : U ∖ visited_urls (self s2)
                  = (U ∖ visited_urls (self s)) ∖ {[url]}) by (simpl; set_solver).
    rewrite Heq, size_difference, size_singleton by set_solver.
    assert (size (U ∖ visited_urls (self s)) ≠ 0%nat).
    { apply size_non_empty_iff. set_solver. }
    lia. }
  set (P := fun t : ProcState =>
              base_url (self t) = base /\
              visited_urls (self s2) ⊆ visited_urls (self t)).
  assert (Hloop : forall links t, P t ->
            settles (for_each links
                       (fun href => let* next_url := lift (urljoin W url href) in
                                    crawl_page W fuel next_url) t)).
  { intros links. apply for_each_settles. intros href t [Htbase Htsub].
    unfold bind. destruct (urljoin W url href) as [next | e]; cbn [lift ret raise];
      [| exact I].
    destruct (IH next t Htbase) as [t' Hrun].
    { eapply Nat.le_lt_trans; [| exact Hless]. apply subseteq_size. set_solver. }
    destruct (crawl_page_monotone W fuel next t) as [Hb Hs].
    rewrite Hrun in *. simpl in Hb, Hs.
    split; [congruence | set_solver]. }
  assert (HP2 : P s2) by (split; [exact Hbase | reflexivity]).
  destruct (extract_content soup url) as [[c |] soup'].
  - unfold bind at 1. unfold modify at 1. apply Hloop. exact HP2.
  - unfold bind at 1. unfold ret at 1. apply Hloop, HP2.
Qed.

End Termination.

(** On the reference world four URLs can be fetched with success, so five
    units of fuel are enough. *)
Lemma crawl_page_returns_witness :
  exists s', crawl_page Demo.world 5 "http://docs.test/" (crawl_start "http://docs.test/")
             = Returned tt s'.
Proof.
  apply (crawl_page_returns Demo.world
           ({["http://docs.test/"]} ∪ {["http://docs.test/docs/q"]} ∪
            {["http://empty.test/"]} ∪ {["http://choice.test/"]}) "http://docs.test/").
  - intros earlier u r _ [Hget Hstatus]. simpl in Hget. unfold Demo.serve in Hget.
    destruct (String.eqb_spec u "http://docs.test/") as [-> | _]; [set_solver |].
    destruct (String.eqb_spec u "http://docs.test/docs/q") as [-> | _]; [set_solver |].
    destruct (String.eqb_spec u "http://empty.test/") as [-> | _]; [set_solver |].
    destruct (String.eqb_spec u "http://choice.test/") as [-> | _]; [set_solver |].
    destruct (String.eqb_spec u "http://down.test/") as [-> | _]; [discriminate |].
    injection Hget as <-. discriminate.
  - reflexivity.
  - unfold crawl_start, DocumentProcessor_init. cbn [self visited_urls].
    rewrite difference_empty_L.
    rewrite !size_union, !size_singleton by set_solver. lia.
Defined.

(* ===================================================================== *)
(** ** The crawl page by page *)
(* ===================================================================== *)

Section Pages.

Context (W : World).

Lemma for_each_page_steps {A} (body : A -> M ProcState unit) (xs : list A) :
  (forall x s, rtc (page_step W) s (res_state (body x s))) ->
  forall s, rtc (page_step W) s (res_state (for_each xs body s)).
Proof.
  intros Hbody. induction xs as [| x xs IH]; intros s; simpl.
  - apply rtc_refl.
  - unfold bind. specialize (Hbody x s).
    destruct (body x s) as [[] s1 | e s1 | s1]; simpl in Hbody; simpl; auto.
    eapply rtc_trans; [exact Hbody | apply IH].
Qed.

Lemma try_log_page_steps (body : M ProcState unit) (msg : PyException -> string)
    (s0 s : ProcState) :
  rtc (page_step W) s0 (res_state (body s)) ->
  exists s', ends_in (try_except body (fun e => logger ERROR (msg e)) s) s' /\
             rtc (page_step W) s0 s'.
Proof.
  intros H. unfold try_except, ends_in.
  destruct (body s) as [[] s1 | e s1 | s1]; simpl in H.
  - exists s1. eauto.
  - exists (record_log (ERROR, msg e) s1). split; [left; exists tt; reflexivity |].
    eapply rtc_r; [exact H | apply page_log].
  - exists s1. eauto.
Qed.

(** Every run of [crawl_page] is a sequence of page steps. *)
Lemma crawl_page_pages (fuel : nat) (url : string) (s : ProcState) :
  exists s', ends_in (crawl_page W fuel url s) s' /\ rtc (page_step W) s s'.
Proof.
  revert url s. induction fuel as [| fuel IH]; intros url s.
  { exists s. split; [right; reflexivity | apply rtc_refl]. }
  destruct (decide (url ∈ visited_urls (self s))) as [Hin | Hnin].
  { exists s. rewrite crawl_page_skip by auto.
    split; [left; now exists tt | apply rtc_refl]. }
  destruct (is_valid_url_returns W (base_url (self s)) url) as [[] Hvalid].
  2: { exists s. rewrite crawl_page_skip by auto.
       split; [left; now exists tt | apply rtc_refl]. }
  assert (Hlinks : forall links t,
            rtc (page_step W) t
              (res_state (for_each links
                            (fun href => let* next_url := lift (urljoin W url href) in
                                         crawl_page W fuel next_url) t))).
  { intros links. apply for_each_page_steps. intros href t. unfold bind.
    destruct (urljoin W url href) as [next | e]; simpl; [| apply rtc_refl].
    destruct (IH next t) as [t' [[[a ->] | ->] Hrtc]]; exact Hrtc. }
  enter_try Hnin Hvalid. apply try_log_page_steps.
  unfold bind at 1. unfold http_get. fold (record_request url s).
  destruct (requests_get W (requests (env s)) url) as [r | e] eqn:Hget.
  2: { simpl. apply rtc_once, page_failed; auto.
       intros r [Hr _]. congruence. }
  unfold bind at 1.
  destruct (raise_for_status W r) as [[] | e] eqn:Hstatus; cbn [lift ret raise].
  2: { simpl. apply rtc_once, page_failed; auto.
       intros r' [Hr' Hst']. rewrite Hget in Hr'. injection Hr' as <-. congruence. }
  pose proof (page_fetched W s url r Hnin Hvalid (conj Hget Hstatus)) as Hpage.
  unfold store_page in Hpage.
  unfold bind at 1. unfold modify at 1. unfold bind at 1.
  destruct (BeautifulSoup W (text r)) as [soup | e] eqn:Hparse; cbn [lift ret raise].
  2: { simpl. apply rtc_once, Hpage. }
  destruct (extract_content soup url) as [[c |] soup'] eqn:Hextract; simpl in Hpage.
  - unfold bind at 1. unfold modify at 1.
    eapply rtc_l; [exact Hpage | apply Hlinks].
  - unfold bind at 1. unfold ret at 1.
    eapply rtc_l; [exact Hpage | apply Hlinks].
Qed.

(** A property kept by every page step holds along every run. *)
Lemma page_invariant (P : ProcState -> Prop) :
  (forall s s', page_step W s s' -> P s -> P s') ->
  forall fuel url s, P s -> P (res_state (crawl_page W fuel url s)).
Proof.
  intros Hstep fuel url s Hs.
  destruct (crawl_page_pages fuel url s) as [s' [Hend Hrtc]].
  assert (Heq : res_state (crawl_page W fuel url s) = s')
    by (destruct Hend as [[a ->] | ->]; reflexivity).
  rewrite Heq. clear Heq Hend.
  induction Hrtc as [| s1 s2 s3 H12 _ IH]; [exact Hs |].
  apply IH. exact (Hstep _ _ H12 Hs).
Qed.

End Pages.

(* ===================================================================== *)
(** ** What a crawl keeps and what it cannot do *)
(* ===================================================================== *)

(** X1.  [crawl_page] never raises an [Exception] to its caller, whatever
    [urlparse], [urljoin], [requests.get] and the parser do: the filter
    catches its own errors and everything else runs inside the [try]. *)
Theorem crawl_page_never_raises (W : World) (fuel : nat) (url : string)
    (s : ProcState) (e : PyException) (s' : ProcState) :
  crawl_page W fuel url s <> Raised e s'.
Proof.
  destruct (crawl_page_steps W fuel url s) as [t [[[a ->] | ->] _]]; discriminate.
Qed.

(** X2.  A call of [crawl_page] only appends: the records, the log and the
    list of requests it leaves begin with the ones it found, [base_url]
    is the same and no URL has left [visited_urls].  No failure of a page
    removes or changes a record collected before. *)
Theorem crawl_page_appends_only (W : World) (fuel : nat) (url : string) (s0 : ProcState) :
  exists new_chunks new_log new_requests,
    chunks (self (res_state (crawl_page W fuel url s0)))
      = (chunks (self s0) ++ new_chunks)%list /\
    log (env (res_state (crawl_page W fuel url s0)))
      = (log (env s0) ++ new_log)%list /\
    requests (env (res_state (crawl_page W fuel url s0)))
      = (requests (env s0) ++ new_requests)%list /\
    base_url (self (res_state (crawl_page W fuel url s0))) = base_url (self s0) /\
    visited_urls (self s0) ⊆ visited_urls (self (res_state (crawl_page W fuel url s0))).
Proof.
  apply (crawl_invariant W
    (fun t => exists cs lg rq,
       chunks (self t) = (chunks (self s0) ++ cs)%list /\
       log (env t) = (log (env s0) ++ lg)%list /\
       requests (env t) = (requests (env s0) ++ rq)%list /\
       base_url (self t) = base_url (self s0) /\
       visited_urls (self s0) ⊆ visited_urls (self t))).
  - clear fuel url. intros t t' Hstep (cs & lg & rq & Hc & Hl & Hr & Hb & Hv).
    crawl_step_cases Hstep.
    + exists cs, lg, (rq ++ [url])%list. rewrite Hr, <- app_assoc. auto.
    + exists cs, lg, (rq ++ [url])%list. rewrite Hr, <- app_assoc.
      repeat (split; [auto; fail |]). etransitivity; [exact Hv | apply union_subseteq_r].
    + exists (cs ++ [c])%list, lg, rq. rewrite Hc, <- app_assoc. auto.
    + exists cs, (lg ++ [entry])%list, rq. rewrite Hl, <- app_assoc. auto.
  - exists [], [], []. rewrite !app_nil_r. auto.
Qed.

Lemma visited_not_refetched_witness :
  let s := res_state (crawl_page Demo.world 3 "http://docs.test/"
                        (crawl_start "http://docs.test/")) in
  count_occ string_dec
    (requests (env (res_state (crawl_page Demo.world 3 "http://docs.test/docs/q" s))))
    "http://docs.test/docs/q"
  = count_occ string_dec (requests (env s)) "http://docs.test/docs/q".
Proof.
  apply (visited_not_refetched Demo.world 3 "http://docs.test/docs/q"
           "http://docs.test/docs/q").
  apply (bool_decide_unpack _). vm_compute. exact I.
Defined.

(** Every URL in [visited_urls] that the call did not find there was
    requested, and the request came back and passed
    [raise_for_status]. *)
Lemma step_visited_fetched (W : World) (s0 s s' : ProcState) :
  crawl_step W s s' ->
  (forall u, u ∈ visited_urls (self s) ->
     u ∈ visited_urls (self s0) \/
     exists (earlier later : list string) r,
       requests (env s) = (earlier ++ u :: later)%list /\ fetched_ok W earlier u r) ->
  forall u, u ∈ visited_urls (self s') ->
    u ∈ visited_urls (self s0) \/
    exists (earlier later : list string) r,
      requests (env s') = (earlier ++ u :: later)%list /\ fetched_ok W earlier u r.
Proof.
  intros Hstep Hinv.
  destruct Hstep as [t url Hnin Hvalid Hfail | t url r Hnin Hvalid Hok
                    | t earlier url r soup c soup' Hreq Hin Hok Hparse Hext
                    | t entry]; simpl; try exact Hinv.
  - intros u Hu. destruct (Hinv u Hu) as [H0 | (e & l & r & Hr & Hok)]; [now left |].
    right. exists e, (l ++ [url])%list, r. split; [| exact Hok].
    rewrite Hr, <- app_assoc. reflexivity.
  - intros u Hu. apply elem_of_union in Hu as [Hu | Hu].
    + apply elem_of_singleton in Hu as ->. right.
      exists (requests (env t)), [], r. auto.
    + destruct (Hinv u Hu) as [H0 | (e & l & r0 & Hr & Hok0)]; [now left |].
      right. exists e, (l ++ [url])%list, r0. split; [| exact Hok0].
      rewrite Hr, <- app_assoc. reflexivity.
Qed.

(** X4.  Whatever [crawl_page] adds to [visited_urls] was fetched: a
    request for it is on the list of requests, came back and passed
    [raise_for_status]. *)
Theorem visited_were_fetched (W : World) (fuel : nat) (url : string) (s0 : ProcState)
    (u : string) :
  u ∈ visited_urls (self (res_state (crawl_page W fuel url s0))) ->
  u ∈ visited_urls (self s0) \/
  exists (earlier later : list string) r,
    requests (env (res_state (crawl_page W fuel url s0))) = (earlier ++ u :: later)%list /\
    requests_get W earlier u = Return r /\
    raise_for_status W r = Return tt.
Proof.
  intros Hu.
  pose proof (crawl_invariant W
    (fun t => forall u, u ∈ visited_urls (self t) ->
       u ∈ visited_urls (self s0) \/
       exists (earlier later : list string) r,
         requests (env t) = (earlier ++ u :: later)%list /\ fetched_ok W earlier u r)
    (step_visited_fetched W s0) fuel url s0) as H.
  destruct (H (fun v Hv => or_introl Hv) u Hu) as [H0 | (e & l & r & Hr & Hget & Hst)];
    [now left | right; eauto 6].
Qed.

Lemma visited_were_fetched_witness :
  let s' := res_state (crawl_page Demo.world 3 "http://docs.test/"
                         (crawl_start "http://docs.test/")) in
  "http://docs.test/docs/q" ∈ visited_urls (self (crawl_start "http://docs.test/")) \/
  exists (earlier later : list string) r,
    requests (env s') = (earlier ++ "http://docs.test/docs/q" :: later)%list /\
    requests_get Demo.world earlier "http://docs.test/docs/q" = Return r /\
    raise_for_status Demo.world r = Return tt.
Proof.
  apply (visited_were_fetched Demo.world 3 "http://docs.test/"
           (crawl_start "http://docs.test/") "http://docs.test/docs/q").
  apply (bool_decide_unpack _). vm_compute. exact I.
Defined.

Lemma extract_content_fst_url (soup : Soup) (url : string) (c : DocumentChunk.t) :
  fst (extract_content soup url) = Some c -> DocumentChunk.url c = url.
Proof.
  destruct (extract_content soup url) as [chunk soup'] eqn:H. simpl. intros ->.
  now destruct (extract_content_Some _ _ _ _ H) as (_ & Hurl & _).
Qed.

(** The URLs of the records are distinct and all in [visited_urls]. *)
Lemma step_chunk_urls (W : World) (s s' : ProcState) :
  page_step W s s' ->
  NoDup (chunk_urls (self s)) /\
    (forall u, u ∈ chunk_urls (self s) -> u ∈ visited_urls (self s)) ->
  NoDup (chunk_urls (self s')) /\
    (forall u, u ∈ chunk_urls (self s') -> u ∈ visited_urls (self s')).
Proof.
  intros Hstep [Hnd Hsub].
  destruct Hstep as [t url Hnin Hvalid Hfail | t url r Hnin Hvalid Hok | t entry];
    [split; assumption | | split; assumption].
  assert (Hkeep : NoDup (chunk_urls (self (add_visited url (record_request url t)))) /\
                  (forall u, u ∈ chunk_urls (self (add_visited url (record_request url t))) ->
                             u ∈ visited_urls (self (add_visited url (record_request url t))))).
  { split; [exact Hnd |]. intros u Hu. simpl. apply elem_of_union. right.
    now apply Hsub. }
  unfold store_page. destruct (BeautifulSoup W (text r)) as [soup | e]; [| exact Hkeep].
  destruct (fst (extract_content soup url)) as [c |] eqn:Hc; [| exact Hkeep].
  apply extract_content_fst_url in Hc.
  unfold chunk_urls. simpl. rewrite List.map_app. simpl. rewrite Hc. split.
  - apply NoDup_app. split; [exact Hnd |]. split; [| apply NoDup_singleton].
    intros u Hu Hu'. apply list_elem_of_singleton in Hu' as ->.
    apply Hnin. now apply Hsub.
  - intros u Hu. apply elem_of_app in Hu as [Hu | Hu].
    + apply elem_of_union. right. now apply Hsub.
    + apply list_elem_of_singleton in Hu as ->.
      apply elem_of_union. left. now apply elem_of_singleton.
Qed.

(** X5.  [crawl_page] stores at most one record per URL, and only for
    URLs it marked visited: when the URLs of the records are distinct and
    in [visited_urls] before the call, they are so after it, and there
    are no more records than visited URLs. *)
Theorem chunk_urls_distinct (W : World) (fuel : nat) (url : string) (s : ProcState) :
  NoDup (chunk_urls (self s)) ->
  (forall u, u ∈ chunk_urls (self s) -> u ∈ visited_urls (self s)) ->
  NoDup (chunk_urls (self (res_state (crawl_page W fuel url s)))) /\
  (forall u, u ∈ chunk_urls (self (res_state (crawl_page W fuel url s))) ->
             u ∈ visited_urls (self (res_state (crawl_page W fuel url s)))) /\
  (length (chunks (self (res_state (crawl_page W fuel url s))))
   <= size (visited_urls (self (res_state (crawl_page W fuel url s)))))%nat.
Proof.
  intros Hnd Hsub.
  destruct (page_invariant W
    (fun t => NoDup (chunk_urls (self t)) /\
              forall u, u ∈ chunk_urls (self t) -> u ∈ visited_urls (self t))
    (step_chunk_urls W) fuel url s (conj Hnd Hsub)) as [Hnd' Hsub'].
  split; [exact Hnd' | split; [exact Hsub' |]].
  set (p := self (res_state (crawl_page W fuel url s))) in *.
  rewrite <- (length_map DocumentChunk.url (chunks p)).
  fold (chunk_urls p).
  rewrite <- (size_list_to_set (C := gset string) (chunk_urls p)) by exact Hnd'.
  apply subseteq_size. intros u Hu. apply elem_of_list_to_set in Hu.
  now apply Hsub'.
Qed.

Lemma chunk_urls_distinct_witness :
  let s' := res_state (crawl_page Demo.world 3 "http://docs.test/"
                         (crawl_start "http://docs.test/")) in
  NoDup (chunk_urls (self s')) /\
  (forall u, u ∈ chunk_urls (self s') -> u ∈ visited_urls (self s')) /\
  (length (chunks (self s')) <= size (visited_urls (self s')))%nat.
Proof.
  apply (chunk_urls_distinct Demo.world 3 "http://docs.test/"
           (crawl_start "http://docs.test/")).
  - constructor.
  - intros u Hu. inversion Hu.
Defined.

(** X6.  A request that fails, in transport or by its status, leaves the
    processor as it was: [crawl_page] returns normally, [visited_urls]
    and the records are unchanged, the request is on the list and one
    error is logged. *)
Theorem failed_fetch_keeps_processor (W : World) (fuel : nat) (url : string)
    (s : ProcState) (e : PyException) :
  url ∉ visited_urls (self s) ->
  is_valid_url W (base_url (self s)) url = Return true ->
  exc_bind (requests_get W (requests (env s)) url) (raise_for_status W) = Raise e ->
  exists s',
    crawl_page W (S fuel) url s = Returned tt s' /\
    self s' = self s /\
    requests (env s') = (requests (env s) ++ [url])%list /\
    log (env s') = (log (env s) ++
                    [(ERROR, "Error crawling " +:+ url +:+ ": " +:+ exc_str e)])%list.
Proof.
  intros Hnin Hvalid Hfail.
  rewrite (crawl_page_fetch_fails W fuel url s e Hnin Hvalid Hfail).
  eexists. split; [reflexivity |]. repeat split.
Qed.

Lemma failed_fetch_keeps_processor_witness :
  exists s',
    crawl_page Demo.world 1 "http://docs.test/gone" (crawl_start "http://docs.test/")
    = Returned tt s' /\
    self s' = self (crawl_start "http://docs.test/") /\
    requests (env s') = ["http://docs.test/gone"] /\
    log (env s') = [(ERROR, "Error crawling http://docs.test/gone: Client Error")].
Proof.
  apply (failed_fetch_keeps_processor Demo.world 0 "http://docs.test/gone"
           (crawl_start "http://docs.test/") (Exception "Client Error")).
  - simpl. apply not_elem_of_empty.
  - vm_compute. reflexivity.
  - vm_compute. reflexivity.
Defined.

(** A loop stops at the first body that raises, with the state the
    bodies before it left. *)
Lemma for_each_raises {S A} (body : A -> M S unit) (pre rest : list A) (x : A)
    (s t : S) (e : PyException) :
  for_each pre body s = Returned tt t ->
  body x t = Raised e t ->
  for_each (pre ++ x :: rest) body s = Raised e t.
Proof.
  revert s. induction pre as [| y pre IH]; intros s Hpre Hx; simpl in *.
  - injection Hpre as ->. unfold bind. now rewrite Hx.
  - unfold bind in *. destruct (body y s) as [[] s1 | e1 s1 | s1]; try discriminate.
    now apply IH.
Qed.

(** X7.  A link on which [urljoin] raises ends the link loop of its page:
    the links before it are crawled, the error is logged as an error of
    the page, and [crawl_page] returns; the links after it play no
    part. *)
Theorem bad_href_ends_link_loop (W : World) (fuel : nat) (url : string)
    (s t : ProcState) (r : Response) (soup : Soup) (pre rest : list string)
    (h : string) (e : PyException) :
  url ∉ visited_urls (self s) ->
  is_valid_url W (base_url (self s)) url = Return true ->
  requests_get W (requests (env s)) url = Return r ->
  raise_for_status W r = Return tt ->
  BeautifulSoup W (text r) = Return soup ->
  Bs4.find_all_a_href (snd (extract_content soup url)) = (pre ++ h :: rest)%list ->
  for_each pre (fun href => let* next_url := lift (urljoin W url href) in
                            crawl_page W fuel next_url)
    (store_page W url r (add_visited url (record_request url s))) = Returned tt t ->
  urljoin W url h = Raise e ->
  crawl_page W (S fuel) url s
  = Returned tt (record_log (ERROR, "Error crawling " +:+ url +:+ ": " +:+ exc_str e) t).
Proof.
  intros Hnin Hvalid Hget Hstatus Hparse Hlinks Hpre Hjoin.
  enter_try Hnin Hvalid. unfold try_except.
  unfold bind at 1. unfold http_get. rewrite Hget. fold (record_request url s).
  unfold bind at 1. rewrite Hstatus. cbn [lift ret].
  unfold bind at 1. unfold modify at 1. unfold bind at 1. rewrite Hparse. cbn [lift ret].
  unfold store_page in Hpre. rewrite Hparse in Hpre.
  destruct (extract_content soup url) as [[c |] soup'] eqn:Hextract;
    simpl in Hlinks, Hpre; rewrite Hlinks.
  - unfold bind at 1. unfold modify at 1.
    rewrite (for_each_raises _ pre rest h _ t e Hpre); [reflexivity |].
    unfold bind. now rewrite Hjoin.
  - unfold bind at 1. unfold ret at 1.
    rewrite (for_each_raises _ pre rest h _ t e Hpre); [reflexivity |].
    unfold bind. now rewrite Hjoin.
Qed.

Lemma bad_href_ends_link_loop_witness :
  exists t,
    crawl_page bracket_world 2 "http://bracket.test/" (crawl_start "http://bracket.test/")
    = Returned tt
        (record_log (ERROR, "Error crawling http://bracket.test/: Invalid IPv6 URL") t) /\
    requests (env t) = ["http://bracket.test/"; "http://bracket.test/first"].
Proof.
  eexists. split.
  - apply (bad_href_ends_link_loop bracket_world 1 "http://bracket.test/"
             (crawl_start "http://bracket.test/") _
             {| status_code := 200; text := bracket_html |} bracket_tree
             ["/first"] ["/never"] "http://[::1" (Exception "Invalid IPv6 URL")).
    + simpl. apply not_elem_of_empty.
    + vm_compute. reflexivity.
    + vm_compute. reflexivity.
    + reflexivity.
    + vm_compute. reflexivity.
    + vm_compute. reflexivity.
    + vm_compute. reflexivity.
    + vm_compute. reflexivity.
  - vm_compute. reflexivity.
Defined.

(* ===================================================================== *)
(** ** What [initialize_with_url] leaves *)
(* ===================================================================== *)

(** The state [initialize_with_url] ends in is the state its crawl ends
    in, with at most the closing log record added. *)
Lemma initialize_with_url_state (W : World) (fuel : nat) (url : string) (s : AgentState) :
  let start := {| self := DocumentProcessor_init url;
                  env := {| log := log (agent_env s) ++
                                   [(INFO, "Starting documentation processing for " +:+ url)];
                            requests := requests (agent_env s) |} |} in
  let t := res_state (crawl_page W fuel url start) in
  exists closing,
    res_state (initialize_with_url W fuel url s)
    = {| processor := Some (self t);
         agent_env := {| log := log (env t) ++ closing; requests := requests (env t) |} |}.
Proof.
  intros start t.
  unfold initialize_with_url, process_documentation, on_processor, executor_submit,
    try_except, logger, bind, modify, get.
  cbn [processor set_env get_env AgentState_env agent_env self base_url
       DocumentProcessor_init].
  fold start. subst t.
  destruct (crawl_page_steps W fuel url start) as [t [[[[] Hrun] | Hrun] _]];
    rewrite Hrun; cbn.
  - eexists. reflexivity.
  - exists []. destruct t as [p [lg rq]]. simpl. now rewrite app_nil_r.
Qed.

(** X8.  Whatever processor the agent had, after [initialize_with_url]
    it has one for the new seed, and everything in it comes from the new
    crawl: every visited URL passes the filter for the new seed, the
    records have distinct URLs and each record's URL is visited. *)
Theorem initialize_with_url_replaces_processor (W : World) (fuel : nat) (url : string)
    (s : AgentState) :
  exists p,
    processor (res_state (initialize_with_url W fuel url s)) = Some p /\
    base_url p = url /\
    (forall u, u ∈ visited_urls p -> admissible W url u) /\
    NoDup (chunk_urls p) /\
    (forall u, u ∈ chunk_urls p -> u ∈ visited_urls p).
Proof.
  destruct (initialize_with_url_state W fuel url s) as [closing ->].
  eexists. split; [reflexivity |].
  match goal with |- context [crawl_page W fuel url ?st] => set (start := st) end.
  destruct (crawl_invariant W
    (fun t => base_url (self t) = url /\ ∅ ⊆ visited_urls (self t) /\
              forall u, u ∈ visited_urls (self t) -> admissible W url u)
    (fun t t' => step_visited W url ∅ t t') fuel url start) as (Hb & _ & Hadm).
  { split; [reflexivity | split; [reflexivity |]].
    intros u Hu. exfalso. exact (not_elem_of_empty u Hu). }
  destruct (page_invariant W
    (fun t => NoDup (chunk_urls (self t)) /\
              forall u, u ∈ chunk_urls (self t) -> u ∈ visited_urls (self t))
    (step_chunk_urls W) fuel url start) as [Hnd Hsub].
  { split; [constructor | intros u Hu; inversion Hu]. }
  auto.
Qed.

(** X9.  A seed that [is_valid_url] rejects, because it contains one of
    the excluded substrings or cannot be parsed, is not crawled and not
    reported: [initialize_with_url] sends no request, logs no error and
    ends with "Processed 0 documentation chunks". *)
Theorem rejected_seed_is_not_crawled (W : World) (fuel : nat) (url : string)
    (s : AgentState) :
  is_valid_url W url url = Return false ->
  initialize_with_url W (S fuel) url s
  = Returned tt
      {| processor := Some (DocumentProcessor_init url);
         agent_env :=
           {| log := log (agent_env s) ++
                     [(INFO, "Starting documentation processing for " +:+ url);
                      (INFO, "Processed 0 documentation chunks")];
              requests := requests (agent_env s) |} |}.
Proof.
  intros Hrej.
  unfold initialize_with_url, try_except.
  unfold bind at 1. unfold modify at 1.
  unfold bind at 1. unfold logger at 1. unfold modify at 1.
  unfold bind at 1. unfold on_processor. cbn [processor set_env AgentState_env].
  unfold process_documentation. unfold bind at 1. unfold get at 1.
  unfold executor_submit. cbn [self base_url DocumentProcessor_init].
  rewrite crawl_page_skip by (right; exact Hrej).
  unfold bind at 1. unfold get at 1. unfold logger, modify. simpl.
  rewrite <- !app_assoc. reflexivity.
Qed.

Lemma rejected_seed_is_not_crawled_witness :
  initialize_with_url Demo.world 1 "http://docs.test/app.js/guide" QAAgent_init
  = Returned tt
      {| processor := Some (DocumentProcessor_init "http://docs.test/app.js/guide");
         agent_env :=
           {| log := [(INFO, "Starting documentation processing for http://docs.test/app.js/guide");
                      (INFO, "Processed 0 documentation chunks")];
              requests := [] |} |}.
Proof.
  apply (rejected_seed_is_not_crawled Demo.world 0 "http://docs.test/app.js/guide"
           QAAgent_init).
  vm_compute. reflexivity.
Defined.

(* ===================================================================== *)
(** ** Context and answers *)
(* ===================================================================== *)

Lemma append_assoc (a b c : string) : (a +:+ b) +:+ c = a +:+ (b +:+ c).
Proof.
  induction a as [| x a IH]; [reflexivity |].
  change (String x ((a +:+ b) +:+ c) = String x (a +:+ (b +:+ c))). now rewrite IH.
Qed.

Lemma append_empty_r (a : string) : a +:+ "" = a.
Proof.
  induction a as [| x a IH]; [reflexivity |].
  change (String x (a +:+ "") = String x a). now rewrite IH.
Qed.




(** The loop of [format_context] appends one block per record to what it
    starts with. *)
Lemma fold_format_chunk (cs : list DocumentChunk.t) (start : string) :
  fold_left (fun context chunk => context +:+ format_chunk chunk) cs start
  = start +:+ fold_right (fun chunk rest => format_chunk chunk +:+ rest) "" cs.
Proof.
  revert start. induction cs as [| c cs IH]; intros start; simpl.
  - now rewrite append_empty_r.
  - now rewrite IH, append_assoc.
Qed.

Lemma format_context_blocks (p : DocumentProcessor) :
  chunks p <> [] ->
  format_context (Some p)
  = "Here is the relevant documentation:" +:+ PyStr.nl +:+ PyStr.nl +:+
    fold_right (fun chunk rest => format_chunk chunk +:+ rest) "" (chunks p).
Proof.
  intros Hne. unfold format_context. destruct (chunks p) as [| c cs] eqn:Hcs;
    [contradiction |].
  now rewrite fold_format_chunk, !append_assoc.
Qed.


(** X10.  [format_context] is the empty string only without processor or
    without records: with at least one record it begins with the
    preamble. *)
Theorem format_context_empty_iff (p : option DocumentProcessor) :
  format_context p = "" <->
  p = None \/ exists p', p = Some p' /\ chunks p' = [].
Proof.
  split.
  - destruct p as [p' |]; [| now left]. intros H. right. exists p'. split; [reflexivity |].
    destruct (chunks p') as [| c cs] eqn:Hcs; [reflexivity |].
    rewrite format_context_blocks in H by (rewrite Hcs; discriminate). discriminate.
  - intros [-> | [p' [-> Hnil]]]; [reflexivity |]. unfold format_context. now rewrite Hnil.
Qed.



(** X12.  When the answer service replies, [answer_question] returns the
    text of the first content block as it is, and changes nothing: not
    the processor, not the log, not the list of requests. *)
Theorem answer_is_first_block (W : World) (question : string) (s : AgentState)
    (p : DocumentProcessor) (block : string) (others : list string) :
  processor s = Some p ->
  messages_create W (prompt_of (format_context (Some p)) question)
    = Return (block :: others) ->
  answer_question W question s = Returned block s.
Proof.
  intros Hp Hreply. unfold answer_question. unfold bind at 1. unfold get at 1.
  rewrite Hp. unfold try_except. unfold bind at 1. now rewrite Hreply.
Qed.

Lemma answer_is_first_block_witness :
  answer_question answering_world "How do I log in?"
    {| processor := Some (DocumentProcessor_init "http://docs.test/");
       agent_env := {| log := []; requests := [] |} |}
  = Returned "See http://docs.test/"
      {| processor := Some (DocumentProcessor_init "http://docs.test/");
         agent_env := {| log := []; requests := [] |} |}.
Proof.
  apply (answer_is_first_block answering_world "How do I log in?" _
           (DocumentProcessor_init "http://docs.test/")
           "See http://docs.test/" ["second block"]).
  - reflexivity.
  - reflexivity.
Defined.

(** The run of [answer_question] with a processor set, as the question
    loop of [main] sees it. *)
Lemma answer_question_run (W : World) (question : string) (s : AgentState)
    (p : DocumentProcessor) :
  processor s = Some p ->
  exists s',
    answer_question W question s = Returned (answer_of W p question) s' /\
    processor s' = Some p /\
    requests (agent_env s') = requests (agent_env s).
Proof.
  intros Hp. unfold answer_question, answer_of, bind, get, try_except.
  rewrite Hp.
  destruct (messages_create W (prompt_of (format_context (Some p)) question))
    as [[| block others] | e]; simpl; eexists; (split; [reflexivity |]); simpl; auto.
Qed.

(** X13.  With a processor set, [answer_question] always returns, and
    what it returns depends on the records and the question only: it is
    [answer_of].  The processor and the list of requests stay as they
    are; the log stays or grows by one error record that carries the
    returned message. *)
Theorem answer_question_is_answer_of (W : World) (question : string) (s : AgentState)
    (p : DocumentProcessor) :
  processor s = Some p ->
  exists s',
    answer_question W question s = Returned (answer_of W p question) s' /\
    processor s' = Some p /\
    requests (agent_env s') = requests (agent_env s) /\
    (log (agent_env s') = log (agent_env s) \/
     log (agent_env s') = (log (agent_env s) ++ [(ERROR, answer_of W p question)])%list).
Proof.
  intros Hp. unfold answer_question, answer_of. unfold bind at 1. unfold get at 1.
  rewrite Hp. unfold try_except. unfold bind at 1.
  destruct (messages_create W (prompt_of (format_context (Some p)) question))
    as [[| block others] | e]; simpl.
  - eexists. split; [reflexivity |]. simpl. auto.
  - exists s. auto.
  - eexists. split; [reflexivity |]. simpl. auto.
Qed.

Lemma answer_question_is_answer_of_witness :
  exists s',
    answer_question Demo.world "How do I log in?"
      {| processor := Some (DocumentProcessor_init "http://docs.test/");
         agent_env := {| log := []; requests := [] |} |}
    = Returned (answer_of Demo.world (DocumentProcessor_init "http://docs.test/")
                  "How do I log in?") s' /\
    processor s' = Some (DocumentProcessor_init "http://docs.test/") /\
    requests (agent_env s') = [] /\
    (log (agent_env s') = [] \/
     log (agent_env s')
     = [(ERROR, answer_of Demo.world (DocumentProcessor_init "http://docs.test/")
                  "How do I log in?")]).
Proof.
  apply (answer_question_is_answer_of Demo.world "How do I log in?"
           {| processor := Some (DocumentProcessor_init "http://docs.test/");
              agent_env := {| log := []; requests := [] |} |}
           (DocumentProcessor_init "http://docs.test/")).
  reflexivity.
Defined.

(* ===================================================================== *)
(** ** main *)
(* ===================================================================== *)

Section MainLoop.

Context (W : World).

(** One question: the prompt, then the answer. *)
Lemma question_loop_question (p : DocumentProcessor) (text : string)
    (rest : list StdinEvent) (s : ConsoleState) :
  processor (agent s) = Some p ->
  is_question (Line text) = true ->
  exists s',
    question_loop W (Line text :: rest) s = question_loop W rest s' /\
    processor (agent s') = Some p /\
    requests (agent_env (agent s')) = requests (agent_env (agent s)) /\
    stdout s' = (stdout s ++ exchange W p (Line text))%list.
Proof.
  intros Hp Hq. simpl in Hq. apply negb_true_iff in Hq.
  cbn [question_loop]. unfold bind at 1. unfold write at 1. unfold modify at 1.
  rewrite Hq. unfold bind at 1. unfold on_agent. cbn [agent stdout].
  destruct (answer_question_run W text (agent s) p Hp)
    as (a & -> & Hpa & Hreq).
  unfold bind at 1. unfold print, write, modify. cbn [agent stdout].
  eexists. split; [reflexivity |]. cbn [agent stdout exchange].
  rewrite <- app_assoc, !append_assoc. auto.
Qed.

Lemma question_loop_questions (p : DocumentProcessor) (questions rest : list StdinEvent)
    (s : ConsoleState) :
  processor (agent s) = Some p ->
  List.Forall (fun event => is_question event = true) questions ->
  exists s',
    question_loop W (questions ++ rest) s = question_loop W rest s' /\
    processor (agent s') = Some p /\
    requests (agent_env (agent s')) = requests (agent_env (agent s)) /\
    stdout s' = (stdout s ++ flat_map (exchange W p) questions)%list.
Proof.
  intros Hp Hqs. revert s Hp.
  induction Hqs as [| event questions Hq _ IH]; intros s Hp.
  - exists s. rewrite app_nil_r. auto.
  - destruct event as [text |]; [| discriminate].
    destruct (question_loop_question p text (questions ++ rest) s Hp Hq)
      as (s1 & Hrun & Hp1 & Hreq1 & Hout1).
    destruct (IH s1 Hp1) as (s' & Hrun' & Hp' & Hreq' & Hout').
    exists s'. rewrite <- app_comm_cons. split; [now rewrite Hrun |].
    split; [exact Hp' |]. split; [congruence |].
    rewrite Hout', Hout1, <- app_assoc. reflexivity.
Qed.

Lemma bind_ext {S A B} (m : M S A) (k1 k2 : A -> M S B) (s : S) :
  (forall a s', k1 a s' = k2 a s') -> bind m k1 s = bind m k2 s.
Proof.
  intros H. unfold bind. destruct (m s); [apply H | reflexivity | reflexivity].
Qed.

(** What stands after a quit line or an interrupt is not read. *)
Lemma question_loop_stops (pre post : list StdinEvent) (stop : StdinEvent)
    (s : ConsoleState) :
  is_question stop = false ->
  question_loop W (pre ++ stop :: post) s = question_loop W (pre ++ [stop]) s.
Proof.
  intros Hstop. revert s. induction pre as [| event pre IH]; intros s.
  - cbn [app question_loop]. apply bind_ext. intros _ s1.
    destruct stop as [text |]; [| reflexivity].
    simpl in Hstop. apply negb_false_iff in Hstop. now rewrite Hstop.
  - cbn [app question_loop]. apply bind_ext. intros _ s1.
    destruct event as [text |]; [| reflexivity].
    destruct (String.eqb (lower text) "quit"); [reflexivity |].
    apply bind_ext. intros answer s2. apply bind_ext. intros _ s3. apply IH.
Qed.

End MainLoop.

Section MainRuns.

Context (W : World).

Lemma question_loop_stop (stop : StdinEvent) (post : list StdinEvent) (s : ConsoleState) :
  is_question stop = false ->
  question_loop W (stop :: post) s
  = Returned (match stop with Line _ => Quit | Interrupt => Interrupted end) (prompted s).
Proof.
  intros Hstop. cbn [question_loop]. unfold bind, write, modify.
  destruct stop as [text |]; [| reflexivity].
  simpl in Hstop. apply negb_false_iff in Hstop. now rewrite Hstop.
Qed.

Lemma question_loop_eof (s : ConsoleState) :
  question_loop W [] s = Raised (Exception "EOF when reading a line") (prompted s).
Proof. reflexivity. Qed.

(** [main] once [initialize_with_url] has returned: the two lines of the
    start, then the loop, then the line of the way out. *)
Lemma main_after_init (fuel : nat) (url : string) (events : list StdinEvent)
    (s : ConsoleState) (a : AgentState) :
  initialize_with_url W fuel url
    {| processor := None; agent_env := agent_env (agent s) |} = Returned tt a ->
  main W fuel url events s
  = match question_loop W events
            {| agent := a;
               stdout := stdout s ++
                         ["Initializing agent with URL: " +:+ url +:+ PyStr.nl;
                          "Documentation processed. Ready for questions!" +:+ PyStr.nl] |}
    with
    | Returned Quit t => Returned tt t
    | Returned Interrupted t => print (PyStr.nl +:+ "Exiting...") t
    | Raised e t => print ("Error: " +:+ exc_str e) t
    | OutOfFuel t => OutOfFuel t
    end.
Proof.
  intros Hinit. unfold main.
  change (String.eqb api_key "") with false. cbv iota.
  unfold bind at 1. unfold modify at 1. unfold try_except.
  unfold bind at 1. unfold print at 1. unfold write at 1. unfold modify at 1.
  unfold bind at 1. unfold on_agent at 1. cbn [agent stdout]. rewrite Hinit.
  unfold bind at 1. unfold print at 1. unfold write at 1. unfold modify at 1.
  cbn [agent stdout]. rewrite <- app_assoc. cbn [app]. rewrite append_assoc.
  unfold bind at 1.
  match goal with |- context [question_loop W events ?st] =>
    destruct (question_loop W events st) as [[|] t | e t | t]
  end; reflexivity.
Qed.

End MainRuns.

(** X14.  [main] reads nothing after a line that is "quit" in any letter
    case, or after an interrupt: what follows on standard input changes
    neither what is printed nor the state [main] ends in. *)
Theorem main_stops_reading (W : World) (fuel : nat) (url : string)
    (pre post : list StdinEvent) (stop : StdinEvent) (s : ConsoleState) :
  is_quit stop = true \/ stop = Interrupt ->
  main W fuel url (pre ++ stop :: post) s = main W fuel url (pre ++ [stop]) s.
Proof.
  intros Hstop.
  assert (Hq : is_question stop = false).
  { destruct Hstop as [H | ->]; [| reflexivity].
    destruct stop; [simpl in *; now rewrite H | discriminate]. }
  unfold main. change (String.eqb api_key "") with false. cbv iota.
  apply bind_ext. intros _ s1. unfold try_except.
  assert (Hbody : forall k : LoopExit -> M ConsoleState unit,
    (let* _ := print ("Initializing agent with URL: " +:+ url) in
     let* _ := on_agent (initialize_with_url W fuel url) in
     let* _ := print "Documentation processed. Ready for questions!" in
     let* exit := question_loop W (pre ++ stop :: post) in k exit) s1
    = (let* _ := print ("Initializing agent with URL: " +:+ url) in
       let* _ := on_agent (initialize_with_url W fuel url) in
       let* _ := print "Documentation processed. Ready for questions!" in
       let* exit := question_loop W (pre ++ [stop]) in k exit) s1).
  { intros k. apply bind_ext. intros _ s2. apply bind_ext. intros _ s3.
    apply bind_ext. intros _ s4. unfold bind.
    now rewrite (question_loop_stops W pre post stop s4 Hq). }
  now rewrite Hbody.
Qed.

Lemma main_stops_reading_witness :
  main answering_world 3 "http://docs.test/"
    ([Line "How do I log in?"] ++ Line "QuIt" :: [Line "never read"]) console_start
  = main answering_world 3 "http://docs.test/"
      ([Line "How do I log in?"] ++ [Line "QuIt"]) console_start.
Proof.
  apply (main_stops_reading answering_world 3 "http://docs.test/"
           [Line "How do I log in?"] [Line "never read"] (Line "QuIt") console_start).
  left. reflexivity.
Defined.

(** X15.  The transcript of [main] once [initialize_with_url] has
    returned: the two lines of the start, then for every question the
    prompt and one answer, the answer being the one the records and that
    question give, then the prompt once more.  A quit line ends it there,
    an interrupt adds "Exiting...", the end of the input adds
    "Error: EOF when reading a line"; [main] returns in all three cases.
    Answering leaves the processor and the list of requests as
    [initialize_with_url] left them. *)
Theorem main_transcript (W : World) (fuel : nat) (url : string)
    (questions : list StdinEvent) (s : ConsoleState) (a : AgentState)
    (p : DocumentProcessor) :
  initialize_with_url W fuel url
    {| processor := None; agent_env := agent_env (agent s) |} = Returned tt a ->
  processor a = Some p ->
  List.Forall (fun event => is_question event = true) questions ->
  let talk := (stdout s ++
               ["Initializing agent with URL: " +:+ url +:+ PyStr.nl;
                "Documentation processed. Ready for questions!" +:+ PyStr.nl] ++
               flat_map (exchange W p) questions ++ [input_prompt])%list in
  (forall stop post, is_quit stop = true ->
     exists s', main W fuel url (questions ++ stop :: post) s = Returned tt s' /\
                stdout s' = talk /\
                processor (agent s') = Some p /\
                requests (agent_env (agent s')) = requests (agent_env a)) /\
  (forall post,
     exists s', main W fuel url (questions ++ Interrupt :: post) s = Returned tt s' /\
                stdout s' = (talk ++ [PyStr.nl +:+ "Exiting..." +:+ PyStr.nl])%list /\
                processor (agent s') = Some p /\
                requests (agent_env (agent s')) = requests (agent_env a)) /\
  (exists s', main W fuel url questions s = Returned tt s' /\
              stdout s' = (talk ++ ["Error: EOF when reading a line" +:+ PyStr.nl])%list /\
              processor (agent s') = Some p /\
              requests (agent_env (agent s')) = requests (agent_env a)).
Proof.
  intros Hinit Hp Hqs talk.
  set (s3 := {| agent := a;
                stdout := stdout s ++
                          ["Initializing agent with URL: " +:+ url +:+ PyStr.nl;
                           "Documentation processed. Ready for questions!" +:+ PyStr.nl] |}).
  assert (Hloop : forall rest, exists s4,
            question_loop W (questions ++ rest) s3 = question_loop W rest s4 /\
            processor (agent s4) = Some p /\
            requests (agent_env (agent s4)) = requests (agent_env a) /\
            (stdout s4 ++ [input_prompt])%list = talk).
  { intros rest.
    destruct (question_loop_questions W p questions rest s3 Hp Hqs)
      as (s4 & Hrun & Hp4 & Hreq4 & Hout4).
    exists s4. repeat (split; [assumption |]).
    rewrite Hout4. subst talk. simpl. rewrite <- !app_assoc. reflexivity. }
  split; [| split].
  - intros stop post Hstop.
    destruct (Hloop (stop :: post)) as (s4 & Hrun & Hp4 & Hreq4 & Hout4).
    rewrite (main_after_init W fuel url _ s a Hinit). fold s3. rewrite Hrun.
    rewrite question_loop_stop
      by (destruct stop; [simpl in *; now rewrite Hstop | discriminate]).
    destruct stop as [text |]; [| discriminate].
    eexists. split; [reflexivity |]. simpl. auto.
  - intros post.
    destruct (Hloop (Interrupt :: post)) as (s4 & Hrun & Hp4 & Hreq4 & Hout4).
    rewrite (main_after_init W fuel url _ s a Hinit). fold s3. rewrite Hrun.
    rewrite question_loop_stop by reflexivity.
    eexists. split; [reflexivity |]. simpl.
    rewrite <- Hout4, append_assoc. auto.
  - destruct (Hloop []) as (s4 & Hrun & Hp4 & Hreq4 & Hout4).
    rewrite app_nil_r in Hrun.
    rewrite (main_after_init W fuel url _ s a Hinit). fold s3. rewrite Hrun.
    rewrite question_loop_eof.
    eexists. split; [reflexivity |]. simpl.
    rewrite <- Hout4. auto.
Qed.

Lemma main_transcript_witness :
  let a := res_state (initialize_with_url answering_world 3 "http://docs.test/" QAAgent_init) in
  let p := default (DocumentProcessor_init "") (processor a) in
  let talk := ["Initializing agent with URL: http://docs.test/" +:+ PyStr.nl;
               "Documentation processed. Ready for questions!" +:+ PyStr.nl;
               input_prompt;
               PyStr.nl +:+ "Answer: See http://docs.test/" +:+ PyStr.nl;
               input_prompt] in
  (forall stop post, is_quit stop = true ->
     exists s', main answering_world 3 "http://docs.test/"
                  ([Line "How do I log in?"] ++ stop :: post) console_start = Returned tt s' /\
                stdout s' = talk /\
                processor (agent s') = Some p /\
                requests (agent_env (agent s')) = requests (agent_env a)) /\
  (forall post,
     exists s', main answering_world 3 "http://docs.test/"
                  ([Line "How do I log in?"] ++ Interrupt :: post) console_start
                = Returned tt s' /\
                stdout s' = (talk ++ [PyStr.nl +:+ "Exiting..." +:+ PyStr.nl])%list /\
                processor (agent s') = Some p /\
                requests (agent_env (agent s')) = requests (agent_env a)) /\
  (exists s', main answering_world 3 "http://docs.test/"
                [Line "How do I log in?"] console_start = Returned tt s' /\
              stdout s' = (talk ++ ["Error: EOF when reading a line" +:+ PyStr.nl])%list /\
              processor (agent s') = Some p /\
              requests (agent_env (agent s')) = requests (agent_env a)).
Proof.
  apply (main_transcript answering_world 3 "http://docs.test/"
           [Line "How do I log in?"] console_start
           (res_state (initialize_with_url answering_world 3 "http://docs.test/"
                         QAAgent_init))
           (default (DocumentProcessor_init "")
              (processor (res_state (initialize_with_url answering_world 3
                                       "http://docs.test/" QAAgent_init))))).
  - vm_compute. reflexivity.
  - vm_compute. reflexivity.
  - repeat constructor.
Defined.

(** The question loop is never cut short: it returns or raises. *)
Lemma question_loop_settles (W : World) (events : list StdinEvent) (s : ConsoleState) :
  match question_loop W events s with
  | OutOfFuel _ => False
  | _ => True
  end.
Proof.
  revert s. induction events as [| event events IH]; intros s; [exact I |].
  cbn [question_loop]. unfold bind at 1. unfold write at 1. unfold modify at 1.
  destruct event as [text |]; [| exact I].
  destruct (String.eqb (lower text) "quit"); [exact I |].
  unfold bind at 1. unfold on_agent.
  destruct (answer_question_returns W text
              (agent {| agent := agent s; stdout := stdout s ++ [input_prompt] |}))
    as (answer & a & Hanswer & _).
  rewrite Hanswer. unfold bind at 1. unfold print, write, modify. apply IH.
Qed.

(** X16.  Once [initialize_with_url] has returned, [main] returns,
    whatever standard input holds and whatever the answer service does:
    no error of a question ends the program. *)
Theorem main_returns (W : World) (fuel : nat) (url : string)
    (events : list StdinEvent) (s : ConsoleState) (a : AgentState) :
  initialize_with_url W fuel url
    {| processor := None; agent_env := agent_env (agent s) |} = Returned tt a ->
  exists s', main W fuel url events s = Returned tt s'.
Proof.
  intros Hinit. rewrite (main_after_init W fuel url events s a Hinit).
  match goal with |- context [question_loop W events ?st] =>
    pose proof (question_loop_settles W events st) as Hloop;
    destruct (question_loop W events st) as [[|] t | e t | t]
  end; [| | | contradiction]; eexists; reflexivity.
Qed.

Lemma main_returns_witness :
  exists s', main Demo.world 1 "http://down.test/"
               [Line "first"; Interrupt; Line "second"] console_start = Returned tt s'.
Proof.
  apply (main_returns Demo.world 1 "http://down.test/"
           [Line "first"; Interrupt; Line "second"] console_start
           (res_state (initialize_with_url Demo.world 1 "http://down.test/" QAAgent_init))).
  vm_compute. reflexivity.
Defined.

(** After a seed that cannot be reached [main] reports that the
    documentation was processed and asks for questions: the handler that
    prints "Error: ..." for a failed initialization is not entered. *)
Example main_says_ready_after_unreachable_seed :
  exists s',
    main Demo.world 3 "http://down.test/" [Line "quit"] console_start = Returned tt s' /\
    stdout s'
    = ["Initializing agent with URL: http://down.test/" +:+ PyStr.nl;
       "Documentation processed. Ready for questions!" +:+ PyStr.nl;
       input_prompt] /\
    log (agent_env (agent s'))
    = [(INFO, "Starting documentation processing for http://down.test/");
       (ERROR, "Error crawling http://down.test/: Connection refused");
       (INFO, "Processed 0 documentation chunks")].
Proof. eexists. repeat split; vm_compute; reflexivity. Qed.

(* ===================================================================== *)
(** ** What [extract_content] does to the tree *)
(* ===================================================================== *)

Lemma extract_content_snd (soup : Soup) (url : string) :
  snd (extract_content soup url)
  = Bs4.decompose_all ["nav"; "header"; "footer"; "script"; "style"] soup.
Proof.
  unfold extract_content.
  destruct (match Bs4.select_one _ _ _ with Some m => Some m | None => _ end);
    reflexivity.
Qed.

Lemma siblings_idem (names : list string) (kids : list PageElement) :
  List.Forall (fun k => Bs4.decompose_in names (Bs4.decompose_in names k)
                        = Bs4.decompose_in names k) kids ->
  Bs4.decompose_all names (Bs4.decompose_all names kids) = Bs4.decompose_all names kids.
Proof.
  unfold Bs4.decompose_all.
  induction 1 as [| k kids Hk _ IH]; [reflexivity |]. simpl.
  destruct (Bs4.has_name names k) eqn:Hname; [exact IH |].
  simpl. rewrite decompose_in_name, Hname, Hk. simpl. now rewrite IH.
Qed.

Lemma decompose_in_idem (names : list string) (e : PageElement) :
  Bs4.decompose_in names (Bs4.decompose_in names e) = Bs4.decompose_in names e.
Proof.
  induction e as [s | s | n cs h kids IH] using PageElement_tree_ind;
    try reflexivity.
  simpl. f_equal. exact (siblings_idem names kids IH).
Qed.

Lemma decompose_all_idem (names : list string) (soup : Soup) :
  Bs4.decompose_all names (Bs4.decompose_all names soup) = Bs4.decompose_all names soup.
Proof.
  apply siblings_idem, List.Forall_forall. intros k _. apply decompose_in_idem.
Qed.

(** X17.  [extract_content] on the tree a call of it has left gives the
    same record and leaves the same tree: removing the chrome a second
    time removes nothing. *)
Theorem extract_content_twice (soup : Soup) (url : string) :
  extract_content (snd (extract_content soup url)) url = extract_content soup url.
Proof.
  rewrite extract_content_snd. unfold extract_content.
  now rewrite decompose_all_idem.
Qed.


Section Links.

Context (names : list string).

Lemma href_of_decompose_in (e : PageElement) :
  href_of (Bs4.decompose_in names e) = href_of e.
Proof. destruct e; reflexivity. Qed.




End Links.


Lemma head_filter_None {A} (f : A -> bool) (l : list A) :
  head (List.filter f l) = None <-> forall x, In x l -> f x = false.
Proof.
  induction l as [| y l IH]; simpl.
  - split; [intros _ x [] | reflexivity].
  - destruct (f y) eqn:Hy; simpl.
    + split; [discriminate | intros H; specialize (H y (or_introl eq_refl)); congruence].
    + rewrite IH. split.
      * intros H x [<- | Hx]; [exact Hy | now apply H].
      * intros H x Hx. apply H. now right.
Qed.

(** X19.  [extract_content] returns no record exactly when, after the
    chrome is removed, the page has no main, article or body element and
    no element of class content or documentation. *)
Theorem extract_content_None_iff (soup : Soup) (url : string) :
  fst (extract_content soup url) = None <->
  forall d, In d (Bs4.descendants
                    (Bs4.decompose_all ["nav"; "header"; "footer"; "script"; "style"] soup)) ->
            Bs4.matches ["main"; "article"] ["content"; "documentation"] d = false /\
            Bs4.has_name ["body"] d = false.
Proof.
  unfold extract_content, Bs4.select_one, Bs4.select.
  set (all := Bs4.descendants (Bs4.decompose_all _ soup)).
  pose proof (head_filter_None (Bs4.matches ["main"; "article"] ["content"; "documentation"]) all)
    as Hmain.
  pose proof (head_filter_None (Bs4.matches ["body"] []) all) as Hbody.
  assert (Hb : forall d, Bs4.matches ["body"] [] d = Bs4.has_name ["body"] d).
  { intros d. unfold Bs4.matches. destruct d; simpl; try reflexivity.
    now rewrite orb_false_r. }
  destruct (head (List.filter (Bs4.matches ["main"; "article"] _) all)) as [m |] eqn:H1.
  - simpl. split; [discriminate |]. intros H.
    assert (Some m = None); [| discriminate].
    apply Hmain. intros d Hd. now apply H.
  - destruct (head (List.filter (Bs4.matches ["body"] []) all)) as [m |] eqn:H2; simpl.
    + split; [discriminate |]. intros H.
      assert (Some m = None); [| discriminate].
      apply Hbody. intros d Hd. rewrite Hb. now apply H.
    + split; [| reflexivity]. intros _ d Hd. split.
      * now apply Hmain.
      * rewrite <- Hb. now apply Hbody.
Qed.

(** *** [str.strip] *)

Lemma drop_prefix_Some (w s t : string) :
  PyStr.drop_prefix w s = Some t <-> s = w +:+ t.
Proof.
  revert s. induction w as [| a w IH]; intros s; simpl.
  - split; [intros [= ->]; reflexivity | intros ->; reflexivity].
  - destruct s as [| b s]; [split; discriminate |].
    destruct (Ascii.eqb a b) eqn:Hab.
    + apply Ascii.eqb_eq in Hab as ->. rewrite IH. split; [intros ->; reflexivity |].
      intros [= ->]. reflexivity.
    + split; [discriminate |]. intros [= -> _]. rewrite Ascii.eqb_refl in Hab. discriminate.
Qed.


Lemma length_append (a b : string) :
  String.length (a +:+ b) = (String.length a + String.length b)%nat.
Proof. induction a as [| c a IH]; simpl; [reflexivity | now rewrite IH]. Qed.

(** Two strings that begin the same string: one begins the other. *)
Lemma append_eq_startswith (w w' t t' : string) :
  w +:+ t = w' +:+ t' ->
  PyStr.startswith w w' = true \/ PyStr.startswith w' w = true.
Proof.
  revert w'. induction w as [| a w IH]; intros w' H; [now left |].
  destruct w' as [| b w']; [now right |].
  simpl in H. injection H as -> H. simpl. rewrite Ascii.eqb_refl. simpl.
  now apply IH.
Qed.

Lemma prefix_code_spec (chars : list string) :
  prefix_code chars = true ->
  (forall w, In w chars -> w <> "") /\
  (forall w w' t t', In w chars -> In w' chars -> w +:+ t = w' +:+ t' -> w = w').
Proof.
  unfold prefix_code. rewrite forallb_forall. intros Hcode.
  assert (Hpre : forall w w', In w chars -> In w' chars ->
                 PyStr.startswith w w' = true -> w = w').
  { intros w w' Hw Hw' Hstart. apply Hcode in Hw. apply andb_true_iff in Hw as [_ Hw].
    rewrite forallb_forall in Hw. specialize (Hw w' Hw'). rewrite Hstart in Hw.
    now apply String.eqb_eq. }
  split.
  - intros w Hw ->. apply Hcode in Hw. discriminate.
  - intros w w' t t' Hw Hw' Heq.
    destruct (append_eq_startswith _ _ _ _ Heq); [auto | symmetry; auto].
Qed.

Section Strip.

Context (chars : list string).
Hypothesis Hcode : prefix_code chars = true.

Lemma drop_one_Some (s t : string) :
  PyStr.drop_one chars s = Some t -> exists w, In w chars /\ s = w +:+ t.
Proof.
  clear Hcode. induction chars as [| w0 l IH]; simpl; [discriminate |].
  destruct (PyStr.drop_prefix w0 s) as [t0 |] eqn:H0.
  - intros [= ->]. exists w0. split; [now left | now apply drop_prefix_Some].
  - intros H. destruct (IH H) as (w & Hw & ->). exists w. split; [now right | reflexivity].
Qed.



(** With the length of the string for fuel, what is left does not start
    with a character of [chars]. *)
Lemma drop_all_done (fuel : nat) (s : string) :
  (String.length s <= fuel)%nat ->
  PyStr.drop_one chars (PyStr.drop_all chars fuel s) = None.
Proof.
  destruct (prefix_code_spec chars Hcode) as [Hne _].
  revert s. induction fuel as [| fuel IH]; intros s Hlen; simpl.
  - destruct s; [| simpl in Hlen; lia].
    destruct (PyStr.drop_one chars "") as [t |] eqn:Hone; [| reflexivity].
    destruct (drop_one_Some _ _ Hone) as (w & Hw & Heq).
    destruct w; [now destruct (Hne _ Hw) | discriminate].
  - destruct (PyStr.drop_one chars s) as [t |] eqn:Hone; [| exact Hone].
    apply IH. destruct (drop_one_Some _ _ Hone) as (w & Hw & ->).
    rewrite length_append in Hlen.
    assert (String.length w <> 0)%nat; [| lia].
    destruct w; [now destruct (Hne _ Hw) | discriminate].
Qed.



End Strip.









Lemma whitespace_prefix_code :
  prefix_code PyStr.whitespace = true /\
  prefix_code (List.map PyStr.reversed PyStr.whitespace) = true.
Proof. split; vm_compute; reflexivity. Qed.



Lemma lstrip_done (s : string) :
  PyStr.drop_one PyStr.whitespace (PyStr.lstrip s) = None.
Proof. apply drop_all_done; [apply whitespace_prefix_code | reflexivity]. Qed.



(** The no-break space, the next-line character and the em space are
    stripped as the ASCII space is; a space inside stays. *)
Example strip_unicode_spaces :
  PyStr.strip (PyStr.utf8 [194; 160; 32; 194; 133]%nat +:+ "A B" +:+
               PyStr.utf8 [226; 128; 131; 10]%nat) = "A B" /\
  PyStr.strip (PyStr.utf8 [194; 160]%nat) = "".
Proof. split; vm_compute; reflexivity. Qed.






(** A [main] that holds a no-break space and nothing else gives a record
    with an empty body. *)
Example no_break_space_gives_empty_body :
  fst (extract_content
         [Demo.el "html"
            [Demo.el "body"
               [Demo.el "main" [NavigableString (PyStr.utf8 [194; 160]%nat)]]]]
         "http://docs.test/")
  = Some {| DocumentChunk.content := "";
            DocumentChunk.url := "http://docs.test/";
            DocumentChunk.title := Some "http://docs.test/" |}.
Proof. vm_compute. reflexivity. Qed.
